(** * BLOOD-BRIDGE: the compatibility engine and the request lifecycle

    A shallow embedding of [ai_engine.py] and of the request handlers of
    [app.py], followed by the properties of the specification.

    Conventions of the embedding.
    - Python [str] values are [string]s; the model covers ASCII text: a
      character above code 127 is neither whitespace nor changed by
      [upper] or [lower], unlike in Python. A property that names a
      canonical form carries the side condition [ascii_text] on the text
      it canonicalises.
    - The rule table is an association list in the order of the dict
      literal, since [keys()] exposes that order.
    - Donor dictionaries handed to [filter_compatible_donors] are
      [gmap string pyval]; the users, requests and donation records of
      [app.py], whose keys are fixed by the code that creates them, are
      records. A key that a handler adds later ([accepted_at],
      [confirmed_at]) is an [option] field, [None] while absent.
    - The three module-level containers form a [Store], passed through each
      handler explicitly; [datetime.now()] and [uuid4()] are arguments.
    - The [compatible_donors] key that the donor dashboard writes into the
      requests it displays is not among the modelled fields; no handler
      reads it. *)

From stdpp Require Import base option list gmap strings.
From Stdlib Require Import Ascii String.


(* ------------------------------------------------------------------ *)
(** ** Python string primitives *)

Module Py.

(** [str.isspace] on one ASCII character: TAB..CR, FS..US and space. *)
Definition isspace (c : ascii) : bool :=
  let n := nat_of_ascii c in
  ((9 <=? n)%nat && (n <=? 13)%nat) || ((28 <=? n)%nat && (n <=? 32)%nat).

Definition upper_char (c : ascii) : ascii :=
  let n := nat_of_ascii c in
  if ((97 <=? n)%nat && (n <=? 122)%nat) then ascii_of_nat (n - 32) else c.

Fixpoint upper (s : string) : string :=
  match s with
  | EmptyString => EmptyString
  | String c s' => String (upper_char c) (upper s')
  end.

Fixpoint lstrip (s : string) : string :=
  match s with
  | EmptyString => EmptyString
  | String c s' => if isspace c then lstrip s' else s
  end.

Fixpoint rstrip (s : string) : string :=
  match s with
  | EmptyString => EmptyString
  | String c s' =>
      match rstrip s' with
      | EmptyString => if isspace c then EmptyString else String c EmptyString
      | t => String c t
      end
  end.

Definition strip (s : string) : string := rstrip (lstrip s).

Definition lower_char (c : ascii) : ascii :=
  let n := nat_of_ascii c in
  if ((65 <=? n)%nat && (n <=? 90)%nat) then ascii_of_nat (n + 32) else c.

Fixpoint lower (s : string) : string :=
  match s with
  | EmptyString => EmptyString
  | String c s' => String (lower_char c) (lower s')
  end.

(** [x in l] for a list of strings. *)
Definition str_in (x : string) (l : list string) : bool :=
  bool_decide (x ∈ l).

(** A dict literal with string keys, in insertion order. *)
Fixpoint dict_get {V} (d : list (string * V)) (k : string) : option V :=
  match d with
  | [] => None
  | (k', v) :: d' => if String.eqb k' k then Some v else dict_get d' k
  end.

Definition dict_keys {V} (d : list (string * V)) : list string := d.*1.

(** The values a donor dictionary may hold under a key, as far as the
    model goes: a string, [None] or an integer. Values of other types are
    outside it (a [bytes] value, for one, has [strip] and [upper] and is
    compared unequal to every string). *)
Inductive pyval :=
| VStr (s : string)
| VNone
| VInt (z : Z).

Inductive exn := AttributeError.

Inductive result (A : Type) :=
| Ok (a : A)
| Raise (e : exn).
Arguments Ok {A} a.
Arguments Raise {A} e.

(** [str(v)] for a value that is a string or [None]. *)
Definition str_of (v : option string) : string :=
  match v with
  | Some s => s
  | None => "None"
  end.

End Py.

(* ------------------------------------------------------------------ *)
(** ** ai_engine.py *)

Module Engine.
Import Py.

Definition BLOOD_COMPATIBILITY_RULES : list (string * list string) :=
  [ ("O+",  ["O+"; "O-"]);
    ("O-",  ["O-"]);
    ("A+",  ["A+"; "A-"; "O+"; "O-"]);
    ("A-",  ["A-"; "O-"]);
    ("B+",  ["B+"; "B-"; "O+"; "O-"]);
    ("B-",  ["B-"; "O-"]);
    ("AB+", ["A+"; "A-"; "B+"; "B-"; "O+"; "O-"; "AB+"; "AB-"]);
    ("AB-", ["A-"; "B-"; "O-"; "AB-"]) ].

Definition get_compatible_blood_groups (requested_blood_group : string)
  : list string :=
  let requested_blood_group := upper (strip requested_blood_group) in
  match dict_get BLOOD_COMPATIBILITY_RULES requested_blood_group with
  | None => []
  | Some compatible_donors => compatible_donors
  end.

(** [donor.get('blood_group', '').strip().upper()]: only a string has
    [strip]. *)
Definition donor_group (donor : gmap string pyval) : result string :=
  match default (VStr "") (donor !! "blood_group") with
  | VStr s => Ok (upper (strip s))
  | _ => Raise AttributeError
  end.

(** The list comprehension of [filter_compatible_donors], left to right. *)
Fixpoint keep_compatible (compatible_blood_groups : list string)
    (available_donors : list (gmap string pyval))
  : result (list (gmap string pyval)) :=
  match available_donors with
  | [] => Ok []
  | donor :: rest =>
      match donor_group donor with
      | Raise e => Raise e
      | Ok g =>
          match keep_compatible compatible_blood_groups rest with
          | Raise e => Raise e
          | Ok kept =>
              Ok (if str_in g compatible_blood_groups
                  then donor :: kept else kept)
          end
      end
  end.

Definition filter_compatible_donors (requested_blood_group : string)
    (available_donors : list (gmap string pyval))
  : result (list (gmap string pyval)) :=
  let compatible_blood_groups :=
    get_compatible_blood_groups requested_blood_group in
  match compatible_blood_groups with
  | [] => Ok []
  | _ => keep_compatible compatible_blood_groups available_donors
  end.

Definition is_compatible (donor_blood_group requested_blood_group : string)
  : bool :=
  let compatible_blood_groups :=
    get_compatible_blood_groups requested_blood_group in
  let donor_blood_group := upper (strip donor_blood_group) in
  str_in donor_blood_group compatible_blood_groups.

Definition get_all_valid_blood_groups : list string :=
  dict_keys BLOOD_COMPATIBILITY_RULES.

End Engine.

(* ------------------------------------------------------------------ *)
(** ** app.py: storage *)

Module App.
Import Py Engine.

(** A value of [users]: the dict built by [register]. *)
Record User := {
  user_id : string;
  user_name : string;
  user_email : string;
  user_password : string;
  user_blood_group : option string;
  user_role : string;
  registered_at : string
}.

(** An element of [requests_list]: the dict built by [create_request],
    with the two keys the later handlers add. *)
Record Request := {
  req_id : string;
  blood_group : string;
  units : Z;
  requestor_email : string;
  requestor_name : string;
  donor_email : option string;
  donor_name : option string;
  status : string;
  timestamp : string;
  compatibility_info : list string;
  accepted_at : option string;
  confirmed_at : option string
}.

(** An entry of a donor's list in [donation_history]. *)
Record DonationRecord := {
  don_request_id : string;
  don_blood_group : string;
  don_requestor_email : string;
  date_time : string
}.

Record Store := {
  users : gmap string User;
  requests_list : list Request;
  donation_history : gmap string (list DonationRecord)
}.

Definition empty_store : Store :=
  {| users := ∅; requests_list := []; donation_history := ∅ |}.

(** What a handler returns: a redirect after [flash(message, category)],
    or a rendered template (with the request and the action shown on the
    confirmation page). *)
Inductive response :=
| Redirect (endpoint message category : string)
| Render (template : string) (shown : option (Request * string)).

(* ------------------------------------------------------------------ *)
(** ** app.py: helpers *)

Definition generate_unique_id (prefix uuid8 : string) : string :=
  prefix +:+ uuid8.

(** [session] is the value of [session['user_email']], if the key is set. *)
Definition get_current_user (st : Store) (session : option string)
  : option User :=
  match session with
  | Some user_email => users st !! user_email
  | None => None
  end.

Definition get_active_requests (st : Store) : list Request :=
  filter (λ req, status req ∈ ["Requested"; "Confirmed"]) (requests_list st).

Definition record_donation (history : gmap string (list DonationRecord))
    (donor_email request_id blood_group requestor_email now : string)
  : gmap string (list DonationRecord) :=
  let history :=
    match history !! donor_email with
    | None => <[donor_email := []]> history
    | Some _ => history
    end in
  let donation_record :=
    {| don_request_id := request_id;
       don_blood_group := blood_group;
       don_requestor_email := requestor_email;
       date_time := now |} in
  <[donor_email := default [] (history !! donor_email) ++ [donation_record]]>
    history.

(** The [for req in requests_list: if req['id'] == request_id: ... break]
    loop: the first match, with its position, since the handlers then
    write into that very element of the list. *)
Fixpoint find_request (rs : list Request) (request_id : string)
  : option (nat * Request) :=
  match rs with
  | [] => None
  | req :: rs' =>
      if decide (req_id req = request_id) then Some (0, req)
      else prod_map S id <$> find_request rs' request_id
  end.

(* ------------------------------------------------------------------ *)
(** ** app.py: registration and request creation *)

Definition form_get (form : gmap string string) (key default_ : string)
  : string :=
  default default_ (form !! key).

(** [hashed] is [generate_password_hash(password)], [uuid8] the first
    eight characters of a fresh [uuid4()], [now] the formatted clock. *)
Definition register (st : Store) (user_type method : string)
    (form : gmap string string) (hashed uuid8 now : string)
  : response * Store :=
  if decide (lower user_type ∉ ["donor"; "requestor"]) then
    (Redirect "register_type" "Invalid user type!" "danger", st)
  else if decide (method = "POST") then
    let name := strip (form_get form "name" "") in
    let email := lower (strip (form_get form "email" "")) in
    let password := form_get form "password" "" in
    let blood_group := upper (strip (form_get form "blood_group" "")) in
    if decide (name = "" ∨ email = "" ∨ password = "") then
      (Redirect "register" "All fields are required!" "warning", st)
    else if decide (lower user_type = "donor" ∧ blood_group = "") then
      (Redirect "register" "Blood group is required for donors!" "warning", st)
    else
      let valid_blood_groups := get_all_valid_blood_groups in
      if decide (lower user_type = "donor"
                 ∧ blood_group ∉ valid_blood_groups) then
        (Redirect "register"
           ("Invalid blood group! Valid groups: "
              +:+ String.concat ", " valid_blood_groups) "danger", st)
      else if decide (is_Some (users st !! email)) then
        (Redirect "register" "Email already registered!" "danger", st)
      else
        let role :=
          if decide (lower user_type = "donor") then "Donor"
          else "Requestor" in
        let user_id := generate_unique_id (lower role +:+ "_") uuid8 in
        let user :=
          {| user_id := user_id;
             user_name := name;
             user_email := email;
             user_password := hashed;
             user_blood_group :=
               if decide (lower user_type = "donor") then Some blood_group
               else None;
             user_role := role;
             registered_at := now |} in
        (Redirect "login_type" "Registration successful! Please log in."
           "success",
         {| users := <[email := user]> (users st);
            requests_list := requests_list st;
            donation_history := donation_history st |})
  else (Render "register.html" None, st).

(** [units] is [int(request.form.get('units', '0'))], [None] when that
    raises [ValueError]. *)
Definition create_request (st : Store) (session : option string)
    (method : string) (form : gmap string string) (units : option Z)
    (uuid8 now : string)
  : response * Store :=
  match get_current_user st session with
  | None => (Redirect "login_type" "Please log in first!" "warning", st)
  | Some current_user =>
      if decide (user_role current_user ≠ "Requestor") then
        (Redirect "dashboard" "Only requestors can create requests!" "danger",
         st)
      else if decide (method = "POST") then
        let blood_group := upper (strip (form_get form "blood_group" "")) in
        let valid_blood_groups := get_all_valid_blood_groups in
        if decide (blood_group ∉ valid_blood_groups) then
          (Redirect "create_request"
             ("Invalid blood group! Valid groups: "
                +:+ String.concat ", " valid_blood_groups) "danger", st)
        else
          match units with
          | Some units =>
              if decide (units ≤ 0)%Z then
                (Redirect "create_request" "Units must be a positive number!"
                   "warning", st)
              else
                let request_id := generate_unique_id "req_" uuid8 in
                let new_request :=
                  {| req_id := request_id;
                     blood_group := blood_group;
                     units := units;
                     requestor_email := user_email current_user;
                     requestor_name := user_name current_user;
                     donor_email := None;
                     donor_name := None;
                     status := "Requested";
                     timestamp := now;
                     compatibility_info :=
                       get_compatible_blood_groups blood_group;
                     accepted_at := None;
                     confirmed_at := None |} in
                (Redirect "dashboard"
                   ("Blood request created successfully! Request ID: "
                      +:+ request_id) "success",
                 {| users := users st;
                    requests_list := requests_list st ++ [new_request];
                    donation_history := donation_history st |})
          | None =>
              (Redirect "create_request" "Units must be a positive number!"
                 "warning", st)
          end
      else (Render "request.html" None, st)
  end.

(* ------------------------------------------------------------------ *)
(** ** app.py: donation acceptance and confirmation *)

(** [now] is the clock read for [accepted_at], [now'] the later one read
    inside [record_donation]. *)
Definition donate_blood (st : Store) (session : option string)
    (method : string) (now now' : string) (request_id : string)
  : response * Store :=
  match get_current_user st session with
  | None => (Redirect "login_type" "Please log in first!" "warning", st)
  | Some current_user =>
      if decide (user_role current_user ≠ "Donor") then
        (Redirect "dashboard" "Only donors can accept requests!" "danger", st)
      else
        match find_request (requests_list st) request_id with
        | None => (Redirect "dashboard" "Request not found!" "danger", st)
        | Some (i, blood_request) =>
            if decide (status blood_request ≠ "Requested") then
              (Redirect "dashboard" "This request is no longer available!"
                 "danger", st)
            else if negb (is_compatible
                            (str_of (user_blood_group current_user))
                            (blood_group blood_request)) then
              (Redirect "dashboard"
                 ("Your blood group ("
                    +:+ str_of (user_blood_group current_user)
                    +:+ ") is not compatible with the requested blood group ("
                    +:+ blood_group blood_request +:+ ")!") "danger", st)
            else if decide (method = "POST") then
              let accepted :=
                {| req_id := req_id blood_request;
                   blood_group := blood_group blood_request;
                   units := units blood_request;
                   requestor_email := requestor_email blood_request;
                   requestor_name := requestor_name blood_request;
                   donor_email := Some (user_email current_user);
                   donor_name := Some (user_name current_user);
                   status := "Accepted";
                   timestamp := timestamp blood_request;
                   compatibility_info := compatibility_info blood_request;
                   accepted_at := Some now;
                   confirmed_at := confirmed_at blood_request |} in
              (Redirect "dashboard"
                 "You have successfully accepted the request! Donation recorded in your history."
                 "success",
               {| users := users st;
                  requests_list := <[i := accepted]> (requests_list st);
                  donation_history :=
                    record_donation (donation_history st)
                      (user_email current_user) request_id
                      (blood_group accepted) (requestor_email accepted)
                      now' |})
            else
              (Render "confirmation.html" (Some (blood_request, "donate")),
               st)
        end
  end.

Definition confirm_request (st : Store) (session : option string)
    (method : string) (now : string) (request_id : string)
  : response * Store :=
  match get_current_user st session with
  | None => (Redirect "login_type" "Please log in first!" "warning", st)
  | Some current_user =>
      match find_request (requests_list st) request_id with
      | None => (Redirect "dashboard" "Request not found!" "danger", st)
      | Some (i, blood_request) =>
          if decide (requestor_email blood_request ≠ user_email current_user)
          then
            (Redirect "dashboard" "You can only confirm your own requests!"
               "danger", st)
          else if decide (status blood_request ≠ "Accepted") then
            (Redirect "dashboard"
               "This request is not in the correct status for confirmation!"
               "danger", st)
          else if decide (method = "POST") then
            let confirmed :=
              {| req_id := req_id blood_request;
                 blood_group := blood_group blood_request;
                 units := units blood_request;
                 requestor_email := requestor_email blood_request;
                 requestor_name := requestor_name blood_request;
                 donor_email := donor_email blood_request;
                 donor_name := donor_name blood_request;
                 status := "Confirmed";
                 timestamp := timestamp blood_request;
                 compatibility_info := compatibility_info blood_request;
                 accepted_at := accepted_at blood_request;
                 confirmed_at := Some now |} in
            (Redirect "dashboard"
               "Donation confirmed! Thank you for saving a life." "success",
             {| users := users st;
                requests_list := <[i := confirmed]> (requests_list st);
                donation_history := donation_history st |})
          else
            (Render "confirmation.html" (Some (blood_request, "confirm")), st)
      end
  end.

(* ------------------------------------------------------------------ *)
(** ** The error signals of the specification

    The handlers signal a failed precondition by a flashed message of
    category [warning] or [danger] followed by a redirect. The names below
    are the specification's names for these signals. *)

Definition NotLoggedIn : response :=
  Redirect "login_type" "Please log in first!" "warning".
Definition RoleMismatch : response :=
  Redirect "dashboard" "Only donors can accept requests!" "danger".
Definition NotFound : response :=
  Redirect "dashboard" "Request not found!" "danger".
Definition InvalidState_accept : response :=
  Redirect "dashboard" "This request is no longer available!" "danger".
Definition IncompatibleBloodGroup (donor_group requested : string)
  : response :=
  Redirect "dashboard"
    ("Your blood group (" +:+ donor_group
       +:+ ") is not compatible with the requested blood group ("
       +:+ requested +:+ ")!") "danger".
Definition NotOwner : response :=
  Redirect "dashboard" "You can only confirm your own requests!" "danger".
Definition InvalidState_confirm : response :=
  Redirect "dashboard"
    "This request is not in the correct status for confirmation!" "danger".
Definition AcceptedOk : response :=
  Redirect "dashboard"
    "You have successfully accepted the request! Donation recorded in your history."
    "success".
Definition ConfirmedOk : response :=
  Redirect "dashboard" "Donation confirmed! Thank you for saving a life."
    "success".

Definition is_error_signal (r : response) : bool :=
  match r with
  | Redirect _ _ category => bool_decide (category ∈ ["warning"; "danger"])
  | Render _ _ => false
  end.

(* ------------------------------------------------------------------ *)
(** ** Runs of the application *)

(** One handled request that can write to the store. *)
Inductive step (st : Store) : Store → Prop :=
| step_register user_type method form hashed uuid8 now :
    step st (register st user_type method form hashed uuid8 now).2
| step_create session method form units uuid8 now :
    step st (create_request st session method form units uuid8 now).2
| step_accept session method now now' request_id :
    step st (donate_blood st session method now now' request_id).2
| step_confirm session method now request_id :
    step st (confirm_request st session method now request_id).2.

Inductive reachable : Store → Prop :=
| reachable_start : reachable empty_store
| reachable_step st st' : reachable st → step st st' → reachable st'.

End App.

Import Py Engine App.

(* ------------------------------------------------------------------ *)
(** ** Definitions used to state the properties *)

(** The side condition under which [strip], [upper] and [lower] are
    Python's: every character of the text is ASCII. Outside it the three
    functions above leave alone what Python trims or folds (a no-break
    space, a KELVIN SIGN), so a property that names a canonical form is
    stated for ASCII text. *)
Fixpoint ascii_text (s : string) : bool :=
  match s with
  | EmptyString => true
  | String c s' => (nat_of_ascii c <? 128)%nat && ascii_text s'
  end.

(** The submitted form fields a handler canonicalises are ASCII. *)
Definition ascii_fields (form : gmap string string) (keys : list string)
  : Prop :=
  Forall (λ k, ascii_text (form_get form k "") = true) keys.

(** The candidate's canonical blood group as the specification reads it:
    the trimmed, upper-cased [blood_group], empty when the key is absent. *)
Definition candidate_group (donor : gmap string pyval) : string :=
  match donor !! "blood_group" with
  | Some (VStr s) => upper (strip s)
  | _ => ""
  end.

(** A candidate of the type the specification gives to
    [filterCompatibleDonors]: its blood group, when present, is a string. *)
Definition well_formed_candidate (donor : gmap string pyval) : Prop :=
  match donor !! "blood_group" with
  | Some (VStr _) | None => True
  | Some _ => False
  end.

Definition bg (g : string) : gmap string pyval := {[ "blood_group" := VStr g ]}.

(** The candidate's blood group as stored, before canonicalisation. *)
Definition raw_group (donor : gmap string pyval) : string :=
  match donor !! "blood_group" with
  | Some (VStr s) => s
  | _ => ""
  end.

(** What [register] stores under an email: the record carries that email,
    which is trimmed, lower-case and non-empty; the name is trimmed and
    non-empty; a donor has a valid blood group and a requestor none; the id
    is the lower-cased role, an underscore and the random part. *)
Definition user_ok (email : string) (u : User) : Prop :=
  user_email u = email
  ∧ lower (strip email) = email ∧ email ≠ ""
  ∧ strip (user_name u) = user_name u ∧ user_name u ≠ ""
  ∧ ((user_role u = "Donor"
      ∧ (∃ g, user_blood_group u = Some g ∧ g ∈ get_all_valid_blood_groups)
      ∧ ∃ uuid8, user_id u = "donor_" +:+ uuid8)
     ∨ (user_role u = "Requestor"
        ∧ user_blood_group u = None
        ∧ ∃ uuid8, user_id u = "requestor_" +:+ uuid8)).

(** The fields of a request that no handler writes after creation. *)
Definition identity (r : Request) :=
  (req_id r, blood_group r, units r, requestor_email r, requestor_name r,
   timestamp r, compatibility_info r).

(** [r'] is [r] at a later time: the same request, either untouched, or
    moved from Requested to Accepted or Confirmed, or from Accepted to
    Confirmed with the donor and the acceptance time kept. *)
Definition moved_on (r r' : Request) : Prop :=
  identity r' = identity r
  ∧ (r' = r
     ∨ (status r = "Requested" ∧ status r' ∈ ["Accepted"; "Confirmed"])
     ∨ (status r = "Accepted" ∧ status r' = "Confirmed"
        ∧ donor_email r' = donor_email r ∧ donor_name r' = donor_name r
        ∧ accepted_at r' = accepted_at r)).

(** What holds of a request in a store reached by a run. *)
Definition request_ok (st : Store) (r : Request) : Prop :=
  blood_group r ∈ get_all_valid_blood_groups
  ∧ (0 < units r)%Z
  ∧ compatibility_info r = get_compatible_blood_groups (blood_group r)
  ∧ (∃ uuid8, req_id r = "req_" +:+ uuid8)
  ∧ (∃ q, users st !! requestor_email r = Some q
          ∧ user_role q = "Requestor" ∧ user_name q = requestor_name r)
  ∧ match donor_email r with
    | None =>
        status r = "Requested" ∧ donor_name r = None
        ∧ accepted_at r = None ∧ confirmed_at r = None
    | Some e =>
        (∃ d g, users st !! e = Some d ∧ user_role d = "Donor"
                ∧ donor_name r = Some (user_name d)
                ∧ user_blood_group d = Some g
                ∧ is_compatible g (blood_group r) = true)
        ∧ is_Some (accepted_at r)
        ∧ ((status r = "Accepted" ∧ confirmed_at r = None)
           ∨ (status r = "Confirmed" ∧ is_Some (confirmed_at r)))
    end.

Definition store_ok (st : Store) : Prop :=
  map_Forall user_ok (users st) ∧ Forall (request_ok st) (requests_list st).

(** The donation record that matches a request. *)
Definition record_of (r : Request) (d : DonationRecord) : Prop :=
  don_request_id d = req_id r ∧ don_blood_group d = blood_group r
  ∧ don_requestor_email d = requestor_email r.

(** Each donor's log is as long as the requests naming that donor are
    many, and each of its records matches one of those requests. *)
Definition history_ok (st : Store) : Prop :=
  ∀ e,
    List.length (default [] (donation_history st !! e))
    = List.length (filter (λ r, donor_email r = Some e) (requests_list st))
    ∧ ∀ d, d ∈ default [] (donation_history st !! e) →
           ∃ r, r ∈ requests_list st ∧ donor_email r = Some e
                ∧ record_of r d.

(** The table read at a canonical key. *)
Definition donors_of (k : string) : list string :=
  default [] (dict_get BLOOD_COMPATIBILITY_RULES k).

(** The preconditions of [donate_blood], one constructor per way of
    violating one of them. *)
Inductive accept_violation (st : Store) (session : option string)
    (request_id : string) : Prop :=
| accept_not_logged_in :
    get_current_user st session = None →
    accept_violation st session request_id
| accept_role_mismatch u :
    get_current_user st session = Some u → user_role u ≠ "Donor" →
    accept_violation st session request_id
| accept_not_found :
    find_request (requests_list st) request_id = None →
    accept_violation st session request_id
| accept_invalid_state i r :
    find_request (requests_list st) request_id = Some (i, r) →
    status r ≠ "Requested" →
    accept_violation st session request_id
| accept_incompatible u i r :
    get_current_user st session = Some u →
    find_request (requests_list st) request_id = Some (i, r) →
    is_compatible (str_of (user_blood_group u)) (blood_group r) = false →
    accept_violation st session request_id.

(** The preconditions of [confirm_request], likewise. *)
Inductive confirm_violation (st : Store) (session : option string)
    (request_id : string) : Prop :=
| confirm_not_logged_in :
    get_current_user st session = None →
    confirm_violation st session request_id
| confirm_not_found :
    find_request (requests_list st) request_id = None →
    confirm_violation st session request_id
| confirm_not_owner u i r :
    get_current_user st session = Some u →
    find_request (requests_list st) request_id = Some (i, r) →
    requestor_email r ≠ user_email u →
    confirm_violation st session request_id
| confirm_invalid_state i r :
    find_request (requests_list st) request_id = Some (i, r) →
    status r ≠ "Accepted" →
    confirm_violation st session request_id.

(** The fields of a request that acceptance must not touch. *)
Definition accept_frame (r : Request) :=
  (req_id r, blood_group r, units r, requestor_email r, requestor_name r,
   timestamp r, compatibility_info r, confirmed_at r).

(** The fields of a request that confirmation must not touch. *)
Definition confirm_frame (r : Request) :=
  (req_id r, blood_group r, units r, requestor_email r, requestor_name r,
   donor_email r, donor_name r, timestamp r, compatibility_info r,
   accepted_at r).

(** The invariant tying the donor reference to the status. *)
Definition donor_iff_not_requested (st : Store) : Prop :=
  Forall (λ r, donor_email r = None ↔ status r = "Requested")
    (requests_list st).

(** *** The scenario of the specification

    Requestor Rita asks for AB-; donor Dana (B-) accepts; donor Dov (A+)
    comes second; Rita confirms. *)
Module Scenario.

Definition rita : string := "rita@bank.org".
Definition dana : string := "dana@bank.org".
Definition dov : string := "dov@bank.org".

Definition s1 : Store :=
  (register empty_store "requestor" "POST"
     {[ "name" := "Rita"; "email" := " Rita@Bank.org"; "password" := "pw" ]}
     "hash-r" "0a1b2c3d" "2026-01-05 09:00:00").2.

Definition s2 : Store :=
  (register s1 "donor" "POST"
     {[ "name" := "Dana"; "email" := "dana@bank.org"; "password" := "pw";
        "blood_group" := "b-" ]}
     "hash-d1" "11112222" "2026-01-05 09:01:00").2.

Definition s3 : Store :=
  (register s2 "Donor" "POST"
     {[ "name" := "Dov"; "email" := "dov@bank.org"; "password" := "pw";
        "blood_group" := " A+ " ]}
     "hash-d2" "33334444" "2026-01-05 09:02:00").2.

Definition rid : string := "req_deadbeef".

Definition s4 : Store :=
  (create_request s3 (Some rita) "POST" {[ "blood_group" := "ab-" ]}
     (Some 2%Z) "deadbeef" "2026-01-05 10:00:00").2.

Definition s5 : Store :=
  (donate_blood s4 (Some dana) "POST"
     "2026-01-05 11:00:00" "2026-01-05 11:00:01" rid).2.

Definition s6 : Store :=
  (confirm_request s5 (Some rita) "POST" "2026-01-06 08:00:00" rid).2.

(** The request as it stands in [s4], [s5] and [s6]. *)
Definition requested : Request :=
  {| req_id := "req_deadbeef"; blood_group := "AB-"; units := 2;
     requestor_email := "rita@bank.org"; requestor_name := "Rita";
     donor_email := None; donor_name := None; status := "Requested";
     timestamp := "2026-01-05 10:00:00";
     compatibility_info := ["A-"; "B-"; "O-"; "AB-"];
     accepted_at := None; confirmed_at := None |}.

Definition accepted : Request :=
  {| req_id := "req_deadbeef"; blood_group := "AB-"; units := 2;
     requestor_email := "rita@bank.org"; requestor_name := "Rita";
     donor_email := Some "dana@bank.org"; donor_name := Some "Dana";
     status := "Accepted"; timestamp := "2026-01-05 10:00:00";
     compatibility_info := ["A-"; "B-"; "O-"; "AB-"];
     accepted_at := Some "2026-01-05 11:00:00"; confirmed_at := None |}.

Definition confirmed : Request :=
  {| req_id := "req_deadbeef"; blood_group := "AB-"; units := 2;
     requestor_email := "rita@bank.org"; requestor_name := "Rita";
     donor_email := Some "dana@bank.org"; donor_name := Some "Dana";
     status := "Confirmed"; timestamp := "2026-01-05 10:00:00";
     compatibility_info := ["A-"; "B-"; "O-"; "AB-"];
     accepted_at := Some "2026-01-05 11:00:00";
     confirmed_at := Some "2026-01-06 08:00:00" |}.

End Scenario.

(* ------------------------------------------------------------------ *)
(** ** ai_engine.py: explanation and statistics *)

Module Report.

Definition explain_compatibility (requested_blood_group : string) : string :=
  let compatible := get_compatible_blood_groups requested_blood_group in
  match compatible with
  | [] => "Invalid blood group: " +:+ requested_blood_group
  | _ =>
      let compatible_str := String.concat ", " compatible in
      "Blood Group " +:+ requested_blood_group +:+ " can receive from: "
        +:+ compatible_str
  end.


End Report.

(* ------------------------------------------------------------------ *)
(** ** app.py: sessions, request views and the donor profile

    Of the session only [user_email] is modelled, as in [get_current_user];
    no handler reads [user_role] back. *)

Module Views.

Definition is_user_logged_in (session : option string) : bool :=
  bool_decide (is_Some session).

Definition get_user_requests (st : Store) (user_email role : string)
  : list Request :=
  if decide (role = "Requestor") then
    filter (λ req, requestor_email req = user_email) (requests_list st)
  else if decide (role = "Donor") then
    filter (λ req, donor_email req = Some user_email) (requests_list st)
  else [].

(** [check_password_hash] is werkzeug's verifier, applied to the stored
    hash and the submitted password. The second component is the session
    after the call. *)
Definition login (check_password_hash : string → string → bool)
    (st : Store) (session : option string) (user_type method : string)
    (form : gmap string string)
  : response * option string :=
  if decide (method = "POST") then
    let email := lower (strip (form_get form "email" "")) in
    let password := form_get form "password" "" in
    if decide (email = "" ∨ password = "") then
      (Redirect "login" "Email and password required!" "warning", session)
    else
      match users st !! email with
      | None => (Redirect "login" "User not found!" "danger", session)
      | Some user =>
          if negb (check_password_hash (user_password user) password) then
            (Redirect "login" "Invalid password!" "danger", session)
          else
            let expected_role :=
              if decide (lower user_type = "donor") then "Donor"
              else "Requestor" in
            if decide (user_role user ≠ expected_role) then
              (Redirect "login"
                 ("This account is registered as a " +:+ user_role user
                    +:+ ", not a " +:+ expected_role +:+ "!") "danger",
               session)
            else
              (Redirect "dashboard"
                 ("Welcome back, " +:+ user_name user +:+ "!") "success",
               Some email)
      end
  else (Render "login.html" None, session).

(** What [logout] does: [users[session['user_email']]] raises [KeyError]
    when the session names an email that [users] does not hold. *)
Inductive logout_result :=
| LoggedOut (endpoint message category : string) (session : option string)
| NothingToDo (endpoint : string) (session : option string)
| KeyError (key : string).

Definition logout (st : Store) (session : option string) : logout_result :=
  match session with
  | Some user_email =>
      match users st !! user_email with
      | None => KeyError user_email
      | Some user =>
          LoggedOut "index" "You have been logged out. Goodbye!" "info" None
      end
  | None => NothingToDo "index" session
  end.

(** The answer of [donor_profile]: a flashed redirect, or the profile page
    with its three template arguments. *)
Inductive profile_view :=
| ProfileRedirect (endpoint message category : string)
| ProfilePage (donor : User) (donation_history : list DonationRecord)
    (compatible_requests : list Request).

Definition donor_profile (st : Store) (session : option string)
    (donor_email : string) : profile_view :=
  match get_current_user st session with
  | None => ProfileRedirect "login_type" "Please log in first!" "warning"
  | Some current_user =>
      match users st !! donor_email with
      | None => ProfileRedirect "view_donors" "Donor not found!" "danger"
      | Some donor =>
          if decide (user_role donor ≠ "Donor") then
            ProfileRedirect "view_donors" "This user is not a donor!" "danger"
          else
            let donor_donations :=
              default [] (donation_history st !! donor_email) in
            let compatible_requests :=
              filter (λ req, is_compatible (str_of (user_blood_group donor))
                               (blood_group req) = true)
                (get_active_requests st) in
            ProfilePage donor donor_donations compatible_requests
      end
  end.

End Views.

Import Report Views.

(* ------------------------------------------------------------------ *)
(** ** Python string primitives: canonical forms *)

Section canonical.

Lemma isspace_upper_char c : isspace (upper_char c) = isspace c.
Proof. by destruct c as [[] [] [] [] [] [] [] []]. Qed.

Lemma upper_char_idemp c : upper_char (upper_char c) = upper_char c.
Proof. by destruct c as [[] [] [] [] [] [] [] []]. Qed.

Lemma upper_idemp s : upper (upper s) = upper s.
Proof. induction s as [|c s IH]; simpl; [done|]. by rewrite upper_char_idemp, IH. Qed.

Lemma upper_empty s : upper s = "" ↔ s = "".
Proof. by destruct s. Qed.

Lemma upper_lstrip s : upper (lstrip s) = lstrip (upper s).
Proof.
  induction s as [|c s IH]; simpl; [done|].
  rewrite isspace_upper_char. by destruct (isspace c).
Qed.

Lemma upper_rstrip s : upper (rstrip s) = rstrip (upper s).
Proof.
  induction s as [|c s IH]; simpl; [done|].
  rewrite <- IH, isspace_upper_char.
  destruct (rstrip s) as [|c' t]; simpl; [|done].
  by destruct (isspace c).
Qed.

Lemma upper_strip s : upper (strip s) = strip (upper s).
Proof. unfold strip. by rewrite upper_rstrip, upper_lstrip. Qed.

Lemma rstrip_idemp s : rstrip (rstrip s) = rstrip s.
Proof.
  induction s as [|c s IH]; simpl; [done|].
  destruct (rstrip s) as [|c' t] eqn:E.
  - destruct (isspace c) eqn:Ec; simpl; [done|]. by rewrite Ec.
  - simpl in *. by rewrite IH.
Qed.

Lemma lstrip_head s : lstrip s = "" ∨ ∃ c t, lstrip s = String c t ∧ isspace c = false.
Proof.
  induction s as [|c s IH]; simpl; [by left|].
  destruct (isspace c) eqn:Ec; [done|]. right. by exists c, s.
Qed.

Lemma rstrip_head c t :
  isspace c = false → ∃ t', rstrip (String c t) = String c t'.
Proof.
  intros Hc. simpl. destruct (rstrip t); [|by eexists].
  rewrite Hc. by eexists.
Qed.

Lemma lstrip_strip s : lstrip (strip s) = strip s.
Proof.
  unfold strip. destruct (lstrip_head s) as [->|(c & t & -> & Hc)]; [done|].
  destruct (rstrip_head c t Hc) as [t' ->]. simpl. by rewrite Hc.
Qed.

Lemma strip_idemp s : strip (strip s) = strip s.
Proof.
  unfold strip at 1. rewrite lstrip_strip. unfold strip. apply rstrip_idemp.
Qed.

Lemma canonical_idemp s : upper (strip (upper (strip s))) = upper (strip s).
Proof. by rewrite <- upper_strip, strip_idemp, upper_idemp. Qed.

End canonical.

(* ------------------------------------------------------------------ *)
(** ** The compatibility engine *)

Section engine.

Lemma str_in_true x l : str_in x l = true ↔ x ∈ l.
Proof. unfold str_in. by rewrite bool_decide_eq_true. Qed.

Lemma dict_get_not_key {V} (d : list (string * V)) k :
  k ∉ dict_keys d → dict_get d k = None.
Proof.
  unfold dict_keys. induction d as [|[k' v] d IH]; simpl; [done|].
  intros Hk. apply not_elem_of_cons in Hk as [Hne Hk].
  destruct (String.eqb_spec k' k); [congruence|]. by apply IH.
Qed.

Lemma valid_groups_cases g :
  g ∈ get_all_valid_blood_groups →
  g = "O+" ∨ g = "O-" ∨ g = "A+" ∨ g = "A-" ∨
  g = "B+" ∨ g = "B-" ∨ g = "AB+" ∨ g = "AB-".
Proof.
  unfold get_all_valid_blood_groups, dict_keys. simpl.
  rewrite !elem_of_cons, elem_of_nil. tauto.
Qed.

Lemma unrecognized_empty x :
  upper (strip x) ∉ get_all_valid_blood_groups →
  get_compatible_blood_groups x = [].
Proof.
  intros Hx. unfold get_compatible_blood_groups.
  by rewrite (dict_get_not_key _ _ Hx).
Qed.

Lemma donor_group_well_formed d :
  well_formed_candidate d → donor_group d = Ok (candidate_group d).
Proof.
  unfold well_formed_candidate, donor_group, candidate_group.
  by destruct (d !! "blood_group") as [[]|].
Qed.

Lemma keep_compatible_filter c ds :
  Forall well_formed_candidate ds →
  keep_compatible c ds = Ok (filter (λ d, candidate_group d ∈ c) ds).
Proof.
  induction 1 as [|d ds Hd _ IH]; simpl; [done|].
  rewrite (donor_group_well_formed _ Hd), IH. f_equal.
  rewrite filter_cons. unfold str_in.
  destruct (decide (candidate_group d ∈ c)).
  - by rewrite bool_decide_eq_true_2.
  - by rewrite bool_decide_eq_false_2.
Qed.

Lemma keep_compatible_skip c l1 d l2 :
  d !! "blood_group" = None → "" ∉ c →
  keep_compatible c (l1 ++ d :: l2) = keep_compatible c (l1 ++ l2).
Proof.
  intros Hd Hc. induction l1 as [|a l1 IH]; simpl.
  - unfold donor_group. rewrite Hd. simpl.
    replace (str_in "" c) with false; [by destruct (keep_compatible c l2)|].
    symmetry. unfold str_in. by apply bool_decide_eq_false_2.
  - by rewrite IH.
Qed.

Lemma table_has_no_empty_group x : "" ∉ get_compatible_blood_groups x.
Proof.
  unfold get_compatible_blood_groups.
  destruct (dict_get _ _) as [l|] eqn:E; [|apply not_elem_of_nil].
  simpl in E.
  repeat match type of E with
  | (if ?b then _ else _) = _ => destruct b
  end.
  all: try discriminate E.
  all: injection E as <-; apply (bool_decide_unpack _); by vm_compute.
Qed.

End engine.

Section engine_properties.

Lemma filter_compatible_donors_unfold req ds :
  filter_compatible_donors req ds =
  keep_compatible (get_compatible_blood_groups req) ds
  ∨ (get_compatible_blood_groups req = []
     ∧ filter_compatible_donors req ds = Ok []).
Proof.
  unfold filter_compatible_donors.
  destruct (get_compatible_blood_groups req); [by right|by left].
Qed.

Lemma keep_compatible_kept c ds res :
  keep_compatible c ds = Ok res →
  res `sublist_of` ds ∧
  ∀ d, d ∈ res → ∃ g, donor_group d = Ok g ∧ g ∈ c.
Proof.
  revert res. induction ds as [|a ds IH]; simpl; intros res Hres.
  - injection Hres as <-. split; [done|]. by intros d ?%elem_of_nil.
  - destruct (donor_group a) as [g|] eqn:Eg; [|done].
    destruct (keep_compatible c ds) as [kept|]; [|done].
    destruct (IH kept eq_refl) as [Hsub Hin].
    injection Hres as <-. destruct (str_in g c) eqn:Ein.
    + split; [by constructor|].
      intros d [->|Hd]%elem_of_cons; [|by apply Hin].
      exists g. split; [done|]. by apply str_in_true.
    + split; [by constructor|done].
Qed.

(** C3. Every key of the compatibility table lists itself and O- among its
    donors; the donors of AB+ are all eight groups; the donors of O- are
    O- alone. *)
Theorem compatibility_table_invariants :
  (∀ g, g ∈ get_all_valid_blood_groups →
        g ∈ get_compatible_blood_groups g
        ∧ "O-" ∈ get_compatible_blood_groups g)
  ∧ List.length get_all_valid_blood_groups = 8
  ∧ NoDup get_all_valid_blood_groups
  ∧ (∀ g, g ∈ get_compatible_blood_groups "AB+"
          ↔ g ∈ get_all_valid_blood_groups)
  ∧ NoDup (get_compatible_blood_groups "AB+")
  ∧ List.length (get_compatible_blood_groups "AB+") = 8
  ∧ get_compatible_blood_groups "O-" = ["O-"].
Proof.
  split; [|split; [|split; [|split; [|split; [|split]]]]].
  - intros g Hg.
    destruct (valid_groups_cases g Hg) as [->|[->|[->|[->|[->|[->|[->| ->]]]]]]];
      split; apply (bool_decide_unpack _); by vm_compute.
  - reflexivity.
  - apply (bool_decide_unpack _). by vm_compute.
  - intros g. vm_compute get_compatible_blood_groups.
    unfold get_all_valid_blood_groups, dict_keys. simpl.
    rewrite !elem_of_cons, !elem_of_nil. tauto.
  - apply (bool_decide_unpack _). by vm_compute.
  - reflexivity.
  - reflexivity.
Qed.

Lemma compatibility_table_invariants_witness :
  "B-" ∈ get_all_valid_blood_groups
  ∧ "B-" ∈ get_compatible_blood_groups "B-"
  ∧ "O-" ∈ get_compatible_blood_groups "B-".
Proof.
  assert (H : "B-" ∈ get_all_valid_blood_groups).
  { apply (bool_decide_unpack _). vm_compute. exact I. }
  split; [exact H|].
  exact (proj1 compatibility_table_invariants "B-" H).
Defined.

(** C6. [get_compatible_blood_groups] looks up the trimmed, upper-cased
    form of its argument in the table: it depends on the argument only
    through that form, so a+ and A+ give the same list, the list of A+;
    for ASCII input, a canonical form that is a key yields that key's
    list, and a canonical form that is not one of the eight groups yields
    the empty list, [is_compatible] false for every donor group and
    [filter_compatible_donors] the empty list, whatever the candidates
    are; none of the three raises. *)
Theorem unrecognized_group_degrades :
  (∀ x, get_compatible_blood_groups (upper (strip x))
        = get_compatible_blood_groups x)
  ∧ (∀ x y, upper (strip x) = upper (strip y) →
            get_compatible_blood_groups x = get_compatible_blood_groups y)
  ∧ get_compatible_blood_groups "a+" = get_compatible_blood_groups "A+"
  ∧ get_compatible_blood_groups "a+" = ["A+"; "A-"; "O+"; "O-"]
  ∧ (∀ x compatible_donors,
        ascii_text x = true →
        dict_get BLOOD_COMPATIBILITY_RULES (upper (strip x))
        = Some compatible_donors →
        get_compatible_blood_groups x = compatible_donors)
  ∧ (∀ x, ascii_text x = true →
          upper (strip x) ∉ get_all_valid_blood_groups →
          get_compatible_blood_groups x = []
          ∧ (∀ donor, is_compatible donor x = false)
          ∧ (∀ candidates, filter_compatible_donors x candidates = Ok [])).
Proof.
  split; [|split; [|split; [|split; [|split]]]].
  - intros x. unfold get_compatible_blood_groups. by rewrite canonical_idemp.
  - intros x y Hxy. unfold get_compatible_blood_groups. by rewrite Hxy.
  - reflexivity.
  - reflexivity.
  - intros x l _ Hl. unfold get_compatible_blood_groups. by rewrite Hl.
  - intros x _ Hx. pose proof (unrecognized_empty x Hx) as He.
    split; [done|]. split.
    + intros donor. unfold is_compatible. rewrite He.
      unfold str_in. apply bool_decide_eq_false_2, not_elem_of_nil.
    + intros candidates. unfold filter_compatible_donors. by rewrite He.
Qed.

Lemma unrecognized_group_degrades_witness :
  get_compatible_blood_groups " ab- " = ["A-"; "B-"; "O-"; "AB-"]
  ∧ get_compatible_blood_groups " x+" = []
  ∧ is_compatible "O-" " x+" = false
  ∧ filter_compatible_donors " x+" [bg "O-"; {[ "blood_group" := VNone ]}]
    = Ok [].
Proof.
  destruct unrecognized_group_degrades as (_ & _ & _ & _ & Hkey & Hnone).
  split.
  { apply Hkey; vm_compute; reflexivity. }
  assert (H : upper (strip " x+") ∉ get_all_valid_blood_groups).
  { apply (bool_decide_unpack _). vm_compute. exact I. }
  destruct (Hnone " x+" eq_refl H) as (H1 & H2 & H3).
  split; [exact H1|]. split; [exact (H2 "O-")|]. exact (H3 _).
Defined.

(** C7. For an ASCII requested group and candidates whose blood group,
    when present, is an ASCII string, [filter_compatible_donors] returns
    the candidates whose canonical blood group is in the compatible list
    of the requested group, in input order; whenever it returns, the
    result is a subsequence of the input; the example of the specification
    for A+ yields the A+ and O- entries. *)
Theorem filter_compatible_donors_subsequence :
  (∀ requested candidates,
      ascii_text requested = true →
      Forall well_formed_candidate candidates →
      Forall (λ d, ascii_text (raw_group d) = true) candidates →
      filter_compatible_donors requested candidates
      = Ok (filter (λ d, candidate_group d
                         ∈ get_compatible_blood_groups requested)
              candidates))
  ∧ (∀ requested candidates kept,
        filter_compatible_donors requested candidates = Ok kept →
        kept `sublist_of` candidates)
  ∧ filter_compatible_donors "A+" [bg "A+"; bg "AB+"; bg "B+"; bg "O-"]
    = Ok [bg "A+"; bg "O-"].
Proof.
  split; [|split].
  - intros req ds _ Hwf _.
    destruct (filter_compatible_donors_unfold req ds) as [->|[He ->]].
    + by apply keep_compatible_filter.
    + rewrite He. f_equal. symmetry. clear Hwf.
      induction ds as [|d ds IH]; [done|].
      rewrite filter_cons_False; [done|apply not_elem_of_nil].
  - intros req ds kept.
    destruct (filter_compatible_donors_unfold req ds) as [->|[_ ->]].
    + by intros [? _]%keep_compatible_kept.
    + intros [= <-]. apply sublist_nil_l.
  - by vm_compute.
Qed.

Lemma filter_compatible_donors_subsequence_witness :
  filter_compatible_donors "ab-" [bg "a-"; ∅; bg " O+ "; bg "B-"]
  = Ok (filter (λ d, candidate_group d ∈ get_compatible_blood_groups "ab-")
          [bg "a-"; ∅; bg " O+ "; bg "B-"]).
Proof.
  apply (proj1 filter_compatible_donors_subsequence).
  - vm_compute. reflexivity.
  - repeat (constructor; [vm_compute; exact I|]). constructor.
  - repeat (constructor; [vm_compute; reflexivity|]). constructor.
Defined.

(** C10. A candidate without a [blood_group] key is read as having the
    empty blood group, never makes [filter_compatible_donors] fail and
    never appears in its result: dropping it from the input changes
    nothing. *)
Theorem missing_blood_group_is_skipped :
  (∀ d, d !! "blood_group" = None → donor_group d = Ok "")
  ∧ (∀ requested l1 d l2,
        d !! "blood_group" = None →
        filter_compatible_donors requested (l1 ++ d :: l2)
        = filter_compatible_donors requested (l1 ++ l2))
  ∧ (∀ requested candidates kept d,
        filter_compatible_donors requested candidates = Ok kept →
        d ∈ kept → d !! "blood_group" ≠ None)
  ∧ (∀ requested candidates,
        Forall (λ d, d !! "blood_group" = None) candidates →
        filter_compatible_donors requested candidates = Ok []).
Proof.
  split; [|split; [|split]].
  - intros d Hd. unfold donor_group. by rewrite Hd.
  - intros req l1 d l2 Hd. unfold filter_compatible_donors.
    pose proof (table_has_no_empty_group req) as Hne.
    destruct (get_compatible_blood_groups req) as [|g c]; [done|].
    by apply keep_compatible_skip.
  - intros req ds kept d.
    destruct (filter_compatible_donors_unfold req ds) as [->|[_ ->]].
    + intros (_ & Hin)%keep_compatible_kept Hd Hnone.
      destruct (Hin d Hd) as (g & Hg & Hgc).
      unfold donor_group in Hg. rewrite Hnone in Hg. simpl in Hg.
      injection Hg as <-. by apply (table_has_no_empty_group req).
    + by intros [= <-] ?%elem_of_nil.
  - intros req ds Hall.
    destruct (filter_compatible_donors_unfold req ds) as [->|[_ ->]]; [|done].
    pose proof (table_has_no_empty_group req) as Hne.
    induction Hall as [|d ds Hd _ IH]; simpl; [done|].
    unfold donor_group. rewrite Hd, IH. simpl.
    unfold str_in. by rewrite bool_decide_eq_false_2.
Qed.

Lemma missing_blood_group_is_skipped_witness :
  filter_compatible_donors "A+"
    ([bg "A+"] ++ {[ "email" := VStr "d@x.org" ]} :: [bg "O-"])
  = filter_compatible_donors "A+" ([bg "A+"] ++ [bg "O-"]).
Proof.
  apply (proj1 (proj2 missing_blood_group_is_skipped)).
  vm_compute. reflexivity.
Defined.

End engine_properties.

(* ------------------------------------------------------------------ *)
(** ** The request lifecycle *)

Section lifecycle.

Implicit Types (st : Store) (session : option string) (r : Request).

Lemma find_request_Some (rs : list Request) rid i r :
  find_request rs rid = Some (i, r) → rs !! i = Some r ∧ req_id r = rid.
Proof.
  revert i. induction rs as [|a rs IH]; simpl; intros i; [done|].
  destruct (decide (req_id a = rid)) as [Ha|Ha].
  - by intros [= <- <-].
  - destruct (find_request rs rid) as [[j q]|]; simpl; [|done].
    intros [= <- <-]. by apply IH.
Qed.

Lemma find_request_first (rs : list Request) rid i r :
  find_request rs rid = Some (i, r) →
  ∀ j q, (j < i)%nat → rs !! j = Some q → req_id q ≠ rid.
Proof.
  revert i. induction rs as [|a rs IH]; simpl; intros i; [done|].
  destruct (decide (req_id a = rid)) as [Ha|Ha].
  - intros [= <- <-] j q Hj. lia.
  - destruct (find_request rs rid) as [[k p]|]; simpl; [|done].
    intros [= <- <-] [|j] q Hj; simpl.
    + by intros [= <-].
    + apply (IH k eq_refl). lia.
Qed.

Lemma record_donation_lookup (h : gmap string (list DonationRecord))
    e rid g re now :
  record_donation h e rid g re now !! e
  = Some (default [] (h !! e)
          ++ [ {| don_request_id := rid; don_blood_group := g;
                  don_requestor_email := re; date_time := now |} ]).
Proof.
  unfold record_donation. rewrite lookup_insert_eq.
  destruct (h !! e) as [l|] eqn:E; simpl.
  - by rewrite E.
  - by rewrite lookup_insert_eq.
Qed.

Lemma record_donation_other (h : gmap string (list DonationRecord))
    e e' rid g re now :
  e' ≠ e → record_donation h e rid g re now !! e' = h !! e'.
Proof.
  intros Hne. unfold record_donation. rewrite lookup_insert_ne by done.
  destruct (h !! e); [done|]. by rewrite lookup_insert_ne.
Qed.

Lemma register_keeps_requests st user_type method form hashed uuid8 now :
  let st' := (register st user_type method form hashed uuid8 now).2 in
  requests_list st' = requests_list st
  ∧ donation_history st' = donation_history st.
Proof. unfold register. by repeat case_decide. Qed.

Lemma create_request_effect st session method form units uuid8 now :
  let st' := (create_request st session method form units uuid8 now).2 in
  donation_history st' = donation_history st
  ∧ (requests_list st' = requests_list st
     ∨ ∃ r, requests_list st' = (requests_list st ++ [r])%list
            ∧ status r = "Requested" ∧ donor_email r = None).
Proof.
  unfold create_request.
  destruct (get_current_user st session) as [u|]; simpl; [|by auto].
  repeat case_decide; simpl; auto.
  destruct units as [n|]; simpl; [|by auto].
  case_decide; simpl; [by auto|].
  split; [done|]. right. by eexists.
Qed.

(** The two outcomes of [donate_blood]: a store left as it was, or the
    acceptance of a request that was in status Requested. *)
Lemma donate_blood_effect st session method now now' rid :
  let out := donate_blood st session method now now' rid in
  (out.2 = st ∧ out.1 ≠ AcceptedOk)
  ∨ (out.1 = AcceptedOk
     ∧ ∃ i r r', requests_list st !! i = Some r
        ∧ status r = "Requested"
        ∧ requests_list out.2 = <[i := r']> (requests_list st)
        ∧ status r' = "Accepted" ∧ is_Some (donor_email r')).
Proof.
  unfold donate_blood.
  destruct (get_current_user st session) as [u|]; simpl; [|by left].
  case_decide; simpl; [by left|].
  destruct (find_request (requests_list st) rid) as [[i r]|] eqn:Ef;
    simpl; [|by left].
  case_decide as Hs; simpl; [by left|].
  destruct (is_compatible _ _); simpl; [|by left].
  case_decide; simpl; [|by left].
  right. split; [done|]. apply find_request_Some in Ef as [Hi _].
  eexists i, r, _. split; [done|].
  split; [by destruct (decide (status r = "Requested"))|].
  split; [done|]. split; [done|]. by eexists.
Qed.

(** Likewise for [confirm_request]. *)
Lemma confirm_request_effect st session method now rid :
  let out := confirm_request st session method now rid in
  donation_history out.2 = donation_history st
  ∧ (out.2 = st
     ∨ ∃ i r r', requests_list st !! i = Some r
        ∧ status r = "Accepted"
        ∧ requests_list out.2 = <[i := r']> (requests_list st)
        ∧ status r' = "Confirmed" ∧ donor_email r' = donor_email r).
Proof.
  unfold confirm_request.
  destruct (get_current_user st session) as [u|]; simpl; [|by auto].
  destruct (find_request (requests_list st) rid) as [[i r]|] eqn:Ef;
    simpl; [|by auto].
  case_decide; simpl; [by auto|].
  case_decide as Hs; simpl; [by auto|].
  case_decide; simpl; [|by auto].
  split; [done|]. right. apply find_request_Some in Ef as [Hi _].
  eexists i, r, _. split; [done|].
  split; [by destruct (decide (status r = "Accepted"))|]. done.
Qed.

End lifecycle.

Section lifecycle_properties.

Implicit Types (st : Store) (session : option string) (r : Request).

Lemma dov_is_logged_in :
  get_current_user Scenario.s5 (Some Scenario.dov)
  = Some {| user_id := "donor_33334444"; user_name := "Dov";
            user_email := "dov@bank.org"; user_password := "hash-d2";
            user_blood_group := Some "A+"; user_role := "Donor";
            registered_at := "2026-01-05 09:02:00" |}.
Proof. by vm_compute. Qed.

(** C1, as stated, fails: a logged-in requestor who asks to accept an
    unknown request id is told that only donors can accept, not that the
    request was not found; the role is checked before the lookup. *)
Lemma accept_lookup_before_role_fails :
  user_role <$> get_current_user Scenario.s4 (Some Scenario.rita)
  = Some "Requestor"
  ∧ find_request (requests_list Scenario.s4) "req_missing" = None
  ∧ (donate_blood Scenario.s4 (Some Scenario.rita) "POST"
       "2026-01-05 10:10:00" "2026-01-05 10:10:01" "req_missing").1
    = RoleMismatch
  ∧ (donate_blood Scenario.s4 (Some Scenario.rita) "POST"
       "2026-01-05 10:10:00" "2026-01-05 10:10:01" "req_missing").1
    ≠ NotFound.
Proof.
  split; [by vm_compute|]. split; [by vm_compute|].
  split; [by vm_compute|]. vm_compute. discriminate.
Qed.

(** C1, amended. For a logged-in caller [donate_blood] checks, in this
    order: the caller's role is Donor (else RoleMismatch); a request with
    the given id exists (else NotFound); its status is Requested (else
    InvalidState); the donor's group is compatible with the requested one
    (else IncompatibleBloodGroup). In particular an attempt by any donor
    on a request already Accepted yields InvalidState and never
    IncompatibleBloodGroup. *)
Theorem accept_check_order st session method now now' rid u :
  get_current_user st session = Some u →
  let out := (donate_blood st session method now now' rid).1 in
  (user_role u ≠ "Donor" → out = RoleMismatch)
  ∧ (user_role u = "Donor" →
     find_request (requests_list st) rid = None → out = NotFound)
  ∧ (user_role u = "Donor" → ∀ i r,
     find_request (requests_list st) rid = Some (i, r) →
     status r ≠ "Requested" → out = InvalidState_accept)
  ∧ (user_role u = "Donor" → ∀ i r,
     find_request (requests_list st) rid = Some (i, r) →
     status r = "Requested" →
     is_compatible (str_of (user_blood_group u)) (blood_group r) = false →
     out = IncompatibleBloodGroup (str_of (user_blood_group u))
             (blood_group r))
  ∧ (user_role u = "Donor" → ∀ i r,
     find_request (requests_list st) rid = Some (i, r) →
     status r = "Accepted" →
     out = InvalidState_accept
     ∧ ∀ d q, out ≠ IncompatibleBloodGroup d q).
Proof.
  intros Hu. unfold donate_blood. rewrite Hu. cbv zeta.
  split; [|split; [|split; [|split]]].
  - intros Hr. by rewrite decide_True.
  - intros Hr Hf. rewrite decide_False by (by intros ?). by rewrite Hf.
  - intros Hr i r Hf Hs. rewrite decide_False by (by intros ?).
    rewrite Hf. by rewrite decide_True.
  - intros Hr i r Hf Hs Hc. rewrite decide_False by (by intros ?).
    rewrite Hf. rewrite decide_False by (by intros ?). by rewrite Hc.
  - intros Hr i r Hf Hs. rewrite decide_False by (by intros ?).
    rewrite Hf. rewrite decide_True by (by rewrite Hs). by split.
Qed.

Lemma accept_check_order_witness :
  (donate_blood Scenario.s5 (Some Scenario.dov) "POST"
     "2026-01-05 12:00:00" "2026-01-05 12:00:01" Scenario.rid).1
  = InvalidState_accept.
Proof.
  pose proof (accept_check_order Scenario.s5 (Some Scenario.dov) "POST"
                "2026-01-05 12:00:00" "2026-01-05 12:00:01" Scenario.rid
                _ dov_is_logged_in) as (_ & _ & _ & _ & H).
  refine (proj1 (H eq_refl 0%nat _ _ _)); vm_compute; reflexivity.
Defined.

(** C2. When a logged-in donor posts an acceptance of a request that the
    lookup finds in status Requested and whose group the donor's group is
    compatible with, the found request gets the donor's email and name,
    status Accepted and the acceptance time, nothing else in it changes,
    and exactly one record is appended to that donor's log, the other logs
    and the users being untouched. No other handler, and no other outcome
    of this one, changes the donation history. *)
Theorem accept_success_effects :
  (∀ st session now now' rid u i r,
      get_current_user st session = Some u →
      user_role u = "Donor" →
      find_request (requests_list st) rid = Some (i, r) →
      status r = "Requested" →
      is_compatible (str_of (user_blood_group u)) (blood_group r) = true →
      ∃ r' st',
        donate_blood st session "POST" now now' rid = (AcceptedOk, st')
        ∧ requests_list st' = <[i := r']> (requests_list st)
        ∧ requests_list st' !! i = Some r'
        ∧ donor_email r' = Some (user_email u)
        ∧ donor_name r' = Some (user_name u)
        ∧ status r' = "Accepted"
        ∧ accepted_at r' = Some now
        ∧ accept_frame r' = accept_frame r
        ∧ users st' = users st
        ∧ donation_history st' !! user_email u
          = Some (default [] (donation_history st !! user_email u)
                  ++ [ {| don_request_id := rid;
                          don_blood_group := blood_group r;
                          don_requestor_email := requestor_email r;
                          date_time := now' |} ])
        ∧ (∀ e, e ≠ user_email u →
                donation_history st' !! e = donation_history st !! e))
  ∧ (∀ st user_type method form hashed uuid8 now,
        donation_history (register st user_type method form hashed uuid8 now).2
        = donation_history st)
  ∧ (∀ st session method form units uuid8 now,
        donation_history
          (create_request st session method form units uuid8 now).2
        = donation_history st)
  ∧ (∀ st session method now rid,
        donation_history (confirm_request st session method now rid).2
        = donation_history st)
  ∧ (∀ st session method now now' rid,
        (donate_blood st session method now now' rid).1 ≠ AcceptedOk →
        (donate_blood st session method now now' rid).2 = st).
Proof.
  split; [|split; [|split; [|split]]].
  - intros st session now now' rid u i r Hu Hr Hf Hs Hc.
    pose proof (find_request_Some _ _ _ _ Hf) as [Hi _].
    unfold donate_blood. rewrite Hu. cbv zeta.
    rewrite decide_False by (by intros ?). rewrite Hf.
    rewrite decide_False by (by intros ?). rewrite Hc. cbn [negb].
    rewrite decide_True by done.
    eexists _, _. split; [reflexivity|]. simpl.
    split; [done|]. split.
    { apply list_lookup_insert_eq. by eapply lookup_lt_Some. }
    do 6 (split; [done|]). split.
    + apply record_donation_lookup.
    + intros e He. by apply record_donation_other.
  - intros. apply register_keeps_requests.
  - intros. apply create_request_effect.
  - intros. apply confirm_request_effect.
  - intros st session method now now' rid Hne.
    by destruct (donate_blood_effect st session method now now' rid)
      as [[? _]|[? _]].
Qed.

Lemma accept_success_effects_witness :
  ∃ r' st',
    donate_blood Scenario.s4 (Some Scenario.dana) "POST"
      "2026-01-05 11:00:00" "2026-01-05 11:00:01" Scenario.rid
    = (AcceptedOk, st')
    ∧ requests_list st' !! 0%nat = Some r'
    ∧ status r' = "Accepted"
    ∧ donation_history st' !! "dana@bank.org"
      = Some [ {| don_request_id := Scenario.rid;
                  don_blood_group := "AB-";
                  don_requestor_email := "rita@bank.org";
                  date_time := "2026-01-05 11:00:01" |} ].
Proof.
  destruct (proj1 accept_success_effects Scenario.s4 (Some Scenario.dana)
              "2026-01-05 11:00:00" "2026-01-05 11:00:01" Scenario.rid
              {| user_id := "donor_11112222"; user_name := "Dana";
                 user_email := "dana@bank.org"; user_password := "hash-d1";
                 user_blood_group := Some "B-"; user_role := "Donor";
                 registered_at := "2026-01-05 09:01:00" |}
              0%nat Scenario.requested)
    as (r' & st' & H1 & _ & H3 & _ & _ & H6 & _ & _ & _ & H10 & _);
    try (vm_compute; reflexivity).
  exists r', st'. split; [exact H1|]. split; [exact H3|].
  split; [exact H6|]. exact H10.
Defined.

(** C4. Whenever a precondition of [donate_blood] or of [confirm_request]
    is violated, the handler answers with an error signal and returns the
    store it was given. *)
Theorem failed_precondition_keeps_store :
  (∀ st session method now now' rid,
      accept_violation st session rid →
      is_error_signal (donate_blood st session method now now' rid).1 = true
      ∧ (donate_blood st session method now now' rid).2 = st)
  ∧ (∀ st session method now rid,
        confirm_violation st session rid →
        is_error_signal (confirm_request st session method now rid).1 = true
        ∧ (confirm_request st session method now rid).2 = st).
Proof.
  split.
  - intros st session method now now' rid Hv. unfold donate_blood.
    destruct Hv as [Hu|u Hu Hr|Hf|i r Hf Hs|u i r Hu Hf Hc].
    + by rewrite Hu.
    + rewrite Hu. by rewrite decide_True.
    + rewrite Hf. destruct (get_current_user st session); [|done].
      by case_decide.
    + rewrite Hf. destruct (get_current_user st session); [|done].
      case_decide; [done|]. by rewrite decide_True.
    + rewrite Hu, Hf, Hc. by repeat case_decide.
  - intros st session method now rid Hv. unfold confirm_request.
    destruct Hv as [Hu|Hf|u i r Hu Hf Ho|i r Hf Hs].
    + by rewrite Hu.
    + rewrite Hf. by destruct (get_current_user st session).
    + rewrite Hu, Hf. by rewrite decide_True.
    + rewrite Hf. destruct (get_current_user st session); [|done].
      case_decide; [done|]. by rewrite decide_True.
Qed.

Lemma failed_precondition_keeps_store_witness :
  is_error_signal
    (donate_blood Scenario.s4 (Some Scenario.dov) "POST"
       "2026-01-05 10:30:00" "2026-01-05 10:30:01" Scenario.rid).1 = true
  ∧ (donate_blood Scenario.s4 (Some Scenario.dov) "POST"
       "2026-01-05 10:30:00" "2026-01-05 10:30:01" Scenario.rid).2
    = Scenario.s4.
Proof.
  apply (proj1 failed_precondition_keeps_store).
  eapply (accept_incompatible _ _ _ _ 0%nat); vm_compute; reflexivity.
Defined.

(** C5. For a logged-in caller [confirm_request] checks, in this order:
    a request with the given id exists (else NotFound); the caller's email
    is the request's requestor email (else NotOwner); the status is
    Accepted (else InvalidState). On a posted confirmation that passes the
    three checks the found request gets status Confirmed and the
    confirmation time, and nothing else changes; no blood group is
    consulted. *)
Theorem confirm_check_order st session method now rid u :
  get_current_user st session = Some u →
  let out := confirm_request st session method now rid in
  (find_request (requests_list st) rid = None → out = (NotFound, st))
  ∧ (∀ i r,
       find_request (requests_list st) rid = Some (i, r) →
       requestor_email r ≠ user_email u → out = (NotOwner, st))
  ∧ (∀ i r,
       find_request (requests_list st) rid = Some (i, r) →
       requestor_email r = user_email u →
       status r ≠ "Accepted" → out = (InvalidState_confirm, st))
  ∧ (∀ i r,
       find_request (requests_list st) rid = Some (i, r) →
       requestor_email r = user_email u →
       status r = "Accepted" →
       method = "POST" →
       ∃ r',
         out = (ConfirmedOk,
                {| users := users st;
                   requests_list := <[i := r']> (requests_list st);
                   donation_history := donation_history st |})
         ∧ <[i := r']> (requests_list st) !! i = Some r'
         ∧ status r' = "Confirmed"
         ∧ confirmed_at r' = Some now
         ∧ confirm_frame r' = confirm_frame r).
Proof.
  intros Hu. unfold confirm_request. rewrite Hu. cbv zeta.
  split; [|split; [|split]].
  - by intros ->.
  - intros i r -> Ho. by rewrite decide_True.
  - intros i r -> Ho Hs. rewrite decide_False by (by intros ?).
    by rewrite decide_True.
  - intros i r Hf Ho Hs Hm.
    pose proof (find_request_Some _ _ _ _ Hf) as [Hi _]. rewrite Hf.
    rewrite decide_False by (by intros ?).
    rewrite decide_False by (by intros ?).
    rewrite decide_True by done.
    eexists. split; [reflexivity|]. split; [|done].
    apply list_lookup_insert_eq. by eapply lookup_lt_Some.
Qed.

Lemma confirm_check_order_witness :
  ∃ r',
    confirm_request Scenario.s5 (Some Scenario.rita) "POST"
      "2026-01-06 08:00:00" Scenario.rid
    = (ConfirmedOk,
       {| users := users Scenario.s5;
          requests_list := <[0%nat := r']> (requests_list Scenario.s5);
          donation_history := donation_history Scenario.s5 |})
    ∧ status r' = "Confirmed"
    ∧ confirmed_at r' = Some "2026-01-06 08:00:00".
Proof.
  destruct (confirm_check_order Scenario.s5 (Some Scenario.rita) "POST"
              "2026-01-06 08:00:00" Scenario.rid
              {| user_id := "requestor_0a1b2c3d"; user_name := "Rita";
                 user_email := "rita@bank.org"; user_password := "hash-r";
                 user_blood_group := None; user_role := "Requestor";
                 registered_at := "2026-01-05 09:00:00" |})
    as (_ & _ & _ & H); [vm_compute; reflexivity|].
  destruct (H 0%nat Scenario.accepted)
    as (r' & H1 & _ & H3 & H4 & _); try (vm_compute; reflexivity).
  exists r'. split; [exact H1|]. split; [exact H3|exact H4].
Defined.

(** C8. [get_active_requests] returns the requests of the collection whose
    status is Requested or Confirmed, in the order of the collection; a
    request in status Accepted is not among them. *)
Theorem active_requests_exclude_accepted st :
  get_active_requests st
  = filter (λ r, status r = "Requested" ∨ status r = "Confirmed")
      (requests_list st)
  ∧ get_active_requests st `sublist_of` requests_list st
  ∧ (∀ r, r ∈ get_active_requests st
          ↔ r ∈ requests_list st
            ∧ (status r = "Requested" ∨ status r = "Confirmed"))
  ∧ (∀ r, status r = "Accepted" → r ∉ get_active_requests st).
Proof.
  assert (Hiff : ∀ r, status r ∈ ["Requested"; "Confirmed"]
                      ↔ status r = "Requested" ∨ status r = "Confirmed").
  { intros r. rewrite !elem_of_cons, elem_of_nil. tauto. }
  unfold get_active_requests. split; [|split; [|split]].
  - by apply list_filter_iff.
  - apply sublist_filter.
  - intros r. rewrite list_elem_of_filter, Hiff. tauto.
  - intros r Hs. rewrite list_elem_of_filter, Hiff, Hs.
    intros [[?|?] _]; discriminate.
Qed.

Lemma active_requests_exclude_accepted_witness :
  Scenario.accepted ∈ requests_list Scenario.s5
  ∧ Scenario.accepted ∉ get_active_requests Scenario.s5.
Proof.
  split.
  - replace (requests_list Scenario.s5) with [Scenario.accepted]
      by (vm_compute; reflexivity).
    apply list_elem_of_here.
  - exact (proj2 (proj2 (proj2
             (active_requests_exclude_accepted Scenario.s5)))
             Scenario.accepted eq_refl).
Defined.

Lemma step_keeps_donor_iff st st' :
  step st st' → donor_iff_not_requested st → donor_iff_not_requested st'.
Proof.
  unfold donor_iff_not_requested.
  intros [user_type method form hashed uuid8 now
         |session method form units uuid8 now
         |session method now now' rid
         |session method now rid] Hinv.
  - by rewrite (proj1 (register_keeps_requests _ _ _ _ _ _ _)).
  - destruct (create_request_effect st session method form units uuid8 now)
      as [_ [->|(r & -> & Hs & Hd)]]; [done|].
    apply Forall_app. split; [done|]. by apply Forall_singleton.
  - destruct (donate_blood_effect st session method now now' rid)
      as [[-> _]|(_ & i & r & r' & _ & _ & -> & Hs & [e He])]; [done|].
    apply Forall_insert; [done|]. by rewrite Hs, He.
  - destruct (confirm_request_effect st session method now rid)
      as [_ [->|(i & r & r' & Hi & Hs & -> & Hs' & Hd)]]; [done|].
    apply Forall_insert; [done|].
    pose proof (proj1 (Forall_lookup _ _) Hinv i r Hi) as Hr.
    rewrite Hs', Hd, Hr, Hs. done.
Qed.

(** C9. In every store reached from the empty one by registrations,
    request creations, acceptances and confirmations, a request has no
    donor email exactly when its status is Requested. *)
Theorem donor_reference_iff_status st :
  reachable st →
  ∀ r, r ∈ requests_list st →
       (donor_email r = None ↔ status r = "Requested").
Proof.
  intros Hreach.
  assert (Hinv : donor_iff_not_requested st).
  { induction Hreach as [|st st' _ IH Hstep].
    - constructor.
    - by apply (step_keeps_donor_iff st st'). }
  intros r Hr. by apply (proj1 (Forall_forall _ _) Hinv).
Qed.

Lemma scenario_reachable : reachable Scenario.s6.
Proof.
  apply (reachable_step Scenario.s5); [|apply step_confirm].
  apply (reachable_step Scenario.s4); [|apply step_accept].
  apply (reachable_step Scenario.s3); [|apply step_create].
  apply (reachable_step Scenario.s2); [|apply step_register].
  apply (reachable_step Scenario.s1); [|apply step_register].
  apply (reachable_step empty_store); [|apply step_register].
  apply reachable_start.
Qed.

Lemma donor_reference_iff_status_witness :
  Scenario.confirmed ∈ requests_list Scenario.s6
  ∧ (donor_email Scenario.confirmed = None
     ↔ status Scenario.confirmed = "Requested").
Proof.
  assert (H : Scenario.confirmed ∈ requests_list Scenario.s6).
  { replace (requests_list Scenario.s6) with [Scenario.confirmed]
      by (vm_compute; reflexivity).
    apply list_elem_of_here. }
  split; [exact H|].
  exact (donor_reference_iff_status Scenario.s6 scenario_reachable _ H).
Defined.

End lifecycle_properties.

(* ------------------------------------------------------------------ *)
(** ** Further properties of the compatibility engine *)

Section engine_table.

Lemma dict_get_Some_key {V} (d : list (string * V)) k v :
  dict_get d k = Some v → k ∈ dict_keys d.
Proof.
  unfold dict_keys. induction d as [|[k' v'] d IH]; simpl; [done|].
  destruct (String.eqb_spec k' k) as [->|_].
  - intros _. apply list_elem_of_here.
  - intros H. apply list_elem_of_further. by apply IH.
Qed.

Lemma compatible_nonempty_valid x :
  get_compatible_blood_groups x ≠ []
  ↔ upper (strip x) ∈ get_all_valid_blood_groups.
Proof.
  split.
  - intros Hne. unfold get_compatible_blood_groups in Hne.
    destruct (dict_get _ _) as [l|] eqn:E; [|done].
    by apply dict_get_Some_key in E.
  - intros Hv. unfold get_compatible_blood_groups.
    destruct (valid_groups_cases _ Hv)
      as [->|[->|[->|[->|[->|[->|[->| ->]]]]]]]; by vm_compute.
Qed.

Lemma get_compatible_donors_of x :
  get_compatible_blood_groups x = donors_of (upper (strip x)).
Proof.
  unfold get_compatible_blood_groups, donors_of. by destruct (dict_get _ _).
Qed.

Lemma donors_of_key g k : g ∈ donors_of k → k ∈ get_all_valid_blood_groups.
Proof.
  unfold donors_of. destruct (dict_get _ k) as [l|] eqn:E.
  - intros _. by apply dict_get_Some_key in E.
  - by intros ?%elem_of_nil.
Qed.

Ltac table_mem H :=
  unfold donors_of in H; simpl in H; rewrite ?elem_of_cons, elem_of_nil in H;
  destruct_or?; try done; subst.

Ltac table_key H :=
  let Hk := fresh in
  pose proof (donors_of_key _ _ H) as Hk;
  apply valid_groups_cases in Hk;
  destruct_or! Hk; rewrite Hk in *; clear Hk.

Lemma donors_of_valid g k : g ∈ donors_of k → g ∈ get_all_valid_blood_groups.
Proof.
  intros H. table_key H; table_mem H; apply (bool_decide_unpack _);
    by vm_compute.
Qed.



Lemma is_compatible_donors_of d r :
  is_compatible d r = true ↔ upper (strip d) ∈ donors_of (upper (strip r)).
Proof.
  unfold is_compatible. by rewrite str_in_true, get_compatible_donors_of.
Qed.


Lemma donors_of_NoDup k : NoDup (donors_of k).
Proof.
  destruct (donors_of k) as [|g l] eqn:E; [constructor|].
  assert (H : g ∈ donors_of k) by (rewrite E; apply list_elem_of_here).
  rewrite <- E. clear E.
  table_key H; apply (bool_decide_unpack _); by vm_compute.
Qed.

Lemma donors_of_refl k : k ∈ get_all_valid_blood_groups → k ∈ donors_of k.
Proof.
  intros [->|[->|[->|[->|[->|[->|[->| ->]]]]]]]%valid_groups_cases;
    apply (bool_decide_unpack _); by vm_compute.
Qed.

Lemma keep_compatible_raise c ds :
  keep_compatible c ds = Raise AttributeError
  ↔ Exists (λ d, ¬ well_formed_candidate d) ds.
Proof.
  induction ds as [|d ds IH]; simpl.
  - split; [done|]. by intros ?%Exists_nil.
  - rewrite Exists_cons, <- IH. unfold donor_group, well_formed_candidate.
    destruct (d !! "blood_group") as [[s| |z]|]; simpl.
    + destruct (keep_compatible c ds) as [kept|[]]; split; try done.
      * intros [H|H]; [by destruct H|done].
      * by right.
    + split; [|done]. left. by intros ?.
    + split; [|done]. left. by intros ?.
    + destruct (keep_compatible c ds) as [kept|[]]; split; try done.
      * intros [H|H]; [by destruct H|done].
      * by right.
Qed.

(** X1. Whatever the input, the groups [get_compatible_blood_groups]
    returns are valid groups without repetition. For ASCII input the list
    is non-empty exactly when the canonical input is a valid group, and
    [is_compatible] holds only between two groups whose canonical forms
    are valid. *)
Theorem compatible_groups_closed :
  (∀ x g, g ∈ get_compatible_blood_groups x →
          g ∈ get_all_valid_blood_groups)
  ∧ (∀ x, NoDup (get_compatible_blood_groups x))
  ∧ (∀ x, ascii_text x = true →
          (get_compatible_blood_groups x ≠ []
           ↔ upper (strip x) ∈ get_all_valid_blood_groups))
  ∧ (∀ d r, ascii_text d = true → ascii_text r = true →
            is_compatible d r = true →
            upper (strip d) ∈ get_all_valid_blood_groups
            ∧ upper (strip r) ∈ get_all_valid_blood_groups).
Proof.
  split; [|split; [|split]].
  - intros x g. rewrite get_compatible_donors_of. intros H.
    by eapply donors_of_valid.
  - intros x. rewrite get_compatible_donors_of. apply donors_of_NoDup.
  - intros x _. apply compatible_nonempty_valid.
  - intros d r _ _ H%is_compatible_donors_of.
    split; [by eapply donors_of_valid|by eapply donors_of_key].
Qed.

Lemma compatible_groups_closed_witness :
  upper (strip " o- ") ∈ get_all_valid_blood_groups
  ∧ upper (strip "ab+") ∈ get_all_valid_blood_groups.
Proof.
  apply (proj2 (proj2 (proj2 compatible_groups_closed)) " o- " "ab+");
    vm_compute; reflexivity.
Defined.

(** X2. [is_compatible] gives the same answer on its arguments and on
    their canonical forms: canonicalising a group that is already
    canonical, as [donate_blood] does with stored groups, changes
    nothing. *)
Theorem is_compatible_canonical d r :
  is_compatible (upper (strip d)) (upper (strip r)) = is_compatible d r
  ∧ is_compatible (upper (strip d)) r = is_compatible d r
  ∧ is_compatible d (upper (strip r)) = is_compatible d r.
Proof.
  unfold is_compatible. rewrite !get_compatible_donors_of.
  by rewrite !canonical_idemp.
Qed.





(** X5. On candidates whose blood group, when present, is a string,
    [filter_compatible_donors] keeps exactly those for which
    [is_compatible], applied to the stored group, holds. *)
Theorem filter_agrees_with_is_compatible requested candidates :
  Forall well_formed_candidate candidates →
  filter_compatible_donors requested candidates
  = Ok (filter (λ d, is_compatible (raw_group d) requested = true)
          candidates).
Proof.
  intros Hwf.
  assert (Hiff : ∀ d, candidate_group d
                      ∈ get_compatible_blood_groups requested
                      ↔ is_compatible (raw_group d) requested = true).
  { intros d. unfold is_compatible, candidate_group, raw_group.
    rewrite str_in_true.
    destruct (d !! "blood_group") as [[]|]; by vm_compute strip. }
  rewrite <- (list_filter_iff _ _ _ Hiff).
  destruct (filter_compatible_donors_unfold requested candidates)
    as [->|[He ->]].
  - by apply keep_compatible_filter.
  - rewrite He. f_equal. symmetry. clear Hwf Hiff.
    induction candidates as [|d ds IH]; [done|].
    rewrite filter_cons_False; [done|apply not_elem_of_nil].
Qed.

Lemma filter_agrees_with_is_compatible_witness :
  filter_compatible_donors "b+" [bg "o-"; ∅; bg "A+"; bg " b- "]
  = Ok (filter (λ d, is_compatible (raw_group d) "b+" = true)
          [bg "o-"; ∅; bg "A+"; bg " b- "]).
Proof.
  apply filter_agrees_with_is_compatible.
  repeat (constructor; [vm_compute; exact I|]). constructor.
Defined.

(** X6. When [get_compatible_blood_groups] recognises the requested
    group and some candidate holds [None] or an integer under
    [blood_group], [filter_compatible_donors] raises [AttributeError];
    when it does not recognise the group, the result is the empty list
    whatever the candidates hold; and whenever it raises, the group was
    recognised and some candidate holds a [blood_group] that is not a
    string. For an ASCII requested group, recognised means that its
    canonical form is a valid group. *)
Theorem filter_raises_iff requested candidates :
  (get_compatible_blood_groups requested ≠ [] →
   Exists (λ d, d !! "blood_group" = Some VNone
                ∨ ∃ z, d !! "blood_group" = Some (VInt z)) candidates →
   filter_compatible_donors requested candidates = Raise AttributeError)
  ∧ (get_compatible_blood_groups requested = [] →
     filter_compatible_donors requested candidates = Ok [])
  ∧ (∀ e, filter_compatible_donors requested candidates = Raise e →
          get_compatible_blood_groups requested ≠ []
          ∧ Exists (λ d, ∃ v, d !! "blood_group" = Some v
                              ∧ ∀ s, v ≠ VStr s) candidates)
  ∧ (ascii_text requested = true →
     (get_compatible_blood_groups requested ≠ []
      ↔ upper (strip requested) ∈ get_all_valid_blood_groups)).
Proof.
  split; [|split; [|split]].
  - intros Hne Hex. unfold filter_compatible_donors.
    destruct (get_compatible_blood_groups requested) as [|g c]; [done|].
    apply keep_compatible_raise. eapply Exists_impl; [exact Hex|].
    intros d Hd Hwf. unfold well_formed_candidate in Hwf.
    destruct Hd as [Hd|[z Hd]]; by rewrite Hd in Hwf.
  - intros He. unfold filter_compatible_donors. by rewrite He.
  - intros [] Hraise. unfold filter_compatible_donors in Hraise.
    destruct (get_compatible_blood_groups requested) as [|g c]; [done|].
    split; [done|]. apply keep_compatible_raise in Hraise.
    eapply Exists_impl; [exact Hraise|].
    intros d Hwf. unfold well_formed_candidate in Hwf.
    destruct (d !! "blood_group") as [[s| |z]|]; [by destruct Hwf| | |
      by destruct Hwf].
    + exists VNone. by split.
    + exists (VInt z). by split.
  - intros _. apply compatible_nonempty_valid.
Qed.

Lemma filter_raises_iff_witness :
  filter_compatible_donors "a+" [bg "A+"; {[ "blood_group" := VNone ]}]
  = Raise AttributeError.
Proof.
  apply (proj1 (filter_raises_iff "a+"
                  [bg "A+"; {[ "blood_group" := VNone ]}])).
  - vm_compute. discriminate.
  - apply Exists_cons_tl, Exists_cons_hd. left. vm_compute. reflexivity.
Defined.

(** X7. [explain_compatibility] answers with the invalid-group message,
    echoing the input as given, exactly when
    [get_compatible_blood_groups] returns nothing for it, and otherwise
    lists the returned groups in table order, separated by a comma and a
    space. For ASCII input the first case is the one of a canonical input
    that is not a valid group. *)
Theorem explain_invalid_iff x :
  (explain_compatibility x = "Invalid blood group: " +:+ x
   ↔ get_compatible_blood_groups x = [])
  ∧ (explain_compatibility x
     = "Blood Group " +:+ x +:+ " can receive from: "
         +:+ String.concat ", " (get_compatible_blood_groups x)
     ↔ get_compatible_blood_groups x ≠ [])
  ∧ (ascii_text x = true →
     (explain_compatibility x = "Invalid blood group: " +:+ x
      ↔ upper (strip x) ∉ get_all_valid_blood_groups)
     ∧ (explain_compatibility x
        = "Blood Group " +:+ x +:+ " can receive from: "
            +:+ String.concat ", " (get_compatible_blood_groups x)
        ↔ upper (strip x) ∈ get_all_valid_blood_groups)).
Proof.
  pose proof (compatible_nonempty_valid x) as Hv.
  unfold explain_compatibility.
  destruct (get_compatible_blood_groups x) as [|g c] eqn:E.
  - split; [done|]. split.
    { split; [intros H; discriminate H|]. intros H. by destruct H. }
    intros _. split.
    + split; [|done]. intros _ Hk. by apply Hv in Hk.
    + split; [intros H; discriminate H|]. intros Hk. by apply Hv in Hk.
  - split.
    { split; intros H; discriminate H. }
    split; [done|]. intros _. split.
    + split; [intros H; discriminate H|]. intros Hk. destruct Hk.
      by apply Hv.
    + split; [|done]. intros _. by apply Hv.
Qed.

Lemma explain_invalid_iff_witness :
  explain_compatibility "x+" = "Invalid blood group: " +:+ "x+".
Proof.
  apply (proj2 (proj1 (proj2 (proj2 (explain_invalid_iff "x+")) eq_refl))).
  apply (bool_decide_unpack _). vm_compute. exact I.
Defined.

End engine_table.

(* ------------------------------------------------------------------ *)
(** ** What one handled request does to the store *)

Section handlers.

Implicit Types (st : Store) (session : option string) (r : Request).

Lemma isspace_lower_char c : isspace (lower_char c) = isspace c.
Proof. by destruct c as [[] [] [] [] [] [] [] []]. Qed.

Lemma lower_char_idemp c : lower_char (lower_char c) = lower_char c.
Proof. by destruct c as [[] [] [] [] [] [] [] []]. Qed.

Lemma lower_idemp s : lower (lower s) = lower s.
Proof.
  induction s as [|c s IH]; simpl; [done|]. by rewrite lower_char_idemp, IH.
Qed.

Lemma lower_lstrip s : lower (lstrip s) = lstrip (lower s).
Proof.
  induction s as [|c s IH]; simpl; [done|].
  rewrite isspace_lower_char. by destruct (isspace c).
Qed.

Lemma lower_rstrip s : lower (rstrip s) = rstrip (lower s).
Proof.
  induction s as [|c s IH]; simpl; [done|].
  rewrite <- IH, isspace_lower_char.
  destruct (rstrip s) as [|c' t]; simpl; [|done].
  by destruct (isspace c).
Qed.

Lemma lower_strip s : lower (strip s) = strip (lower s).
Proof. unfold strip. by rewrite lower_rstrip, lower_lstrip. Qed.

Lemma email_canonical s : lower (strip (lower (strip s))) = lower (strip s).
Proof. by rewrite <- lower_strip, strip_idemp, lower_idemp. Qed.

Lemma register_inv st user_type method form hashed uuid8 now :
  let out := register st user_type method form hashed uuid8 now in
  (out.2 = st
   ∧ out.1 ≠ Redirect "login_type" "Registration successful! Please log in."
               "success")
  ∨ ∃ u,
      let email := lower (strip (form_get form "email" "")) in
      out.1 = Redirect "login_type" "Registration successful! Please log in."
                "success"
      ∧ users st !! email = None
      ∧ user_ok email u
      ∧ user_name u = strip (form_get form "name" "")
      ∧ user_password u = hashed
      ∧ user_role u = (if decide (lower user_type = "donor") then "Donor"
                       else "Requestor")
      ∧ users out.2 = <[email := u]> (users st)
      ∧ requests_list out.2 = requests_list st
      ∧ donation_history out.2 = donation_history st.
Proof.
  unfold register.
  case_decide as Ht; [by left|].
  case_decide as Hm; [|by left].
  case_decide as Hreq; [by left|].
  case_decide as Hbg; [by left|].
  case_decide as Hvalid; [by left|].
  case_decide as Hdup; [by left|].
  right. cbn [fst snd].
  match goal with
  | |- context [ {| users := <[_ := ?u]> (users st) |} ] => exists u
  end.
  cbv zeta. split; [reflexivity|]. cbn [snd users].
  split; [by apply eq_None_not_Some|].
  split; [|done].
  unfold user_ok. cbn.
  split; [done|]. split; [apply email_canonical|].
  split; [tauto|]. split; [apply strip_idemp|]. split; [tauto|].
  destruct (decide (lower user_type = "donor")) as [Hd|Hd].
  - left. split; [done|]. split; [|by eexists].
    eexists. split; [done|].
    destruct (decide (upper (strip (form_get form "blood_group" ""))
                      ∈ get_all_valid_blood_groups)); [done|tauto].
  - right. split; [done|]. split; [done|]. by eexists.
Qed.

Lemma create_request_inv st session method form units uuid8 now :
  let out := create_request st session method form units uuid8 now in
  out.2 = st
  ∨ ∃ u n,
      let g := upper (strip (form_get form "blood_group" "")) in
      get_current_user st session = Some u
      ∧ user_role u = "Requestor"
      ∧ method = "POST"
      ∧ g ∈ get_all_valid_blood_groups
      ∧ units = Some n ∧ (0 < n)%Z
      ∧ out.1 = Redirect "dashboard"
                  ("Blood request created successfully! Request ID: "
                     +:+ "req_" +:+ uuid8) "success"
      ∧ users out.2 = users st
      ∧ donation_history out.2 = donation_history st
      ∧ requests_list out.2
        = (requests_list st
           ++ [ {| req_id := "req_" +:+ uuid8; blood_group := g;
                   units := n; requestor_email := user_email u;
                   requestor_name := user_name u; donor_email := None;
                   donor_name := None; status := "Requested";
                   timestamp := now;
                   compatibility_info := get_compatible_blood_groups g;
                   accepted_at := None; confirmed_at := None |} ])%list.
Proof.
  unfold create_request.
  destruct (get_current_user st session) as [u|]; [|by left].
  case_decide as Hr; [by left|].
  case_decide as Hm; [|by left].
  case_decide as Hg; [by left|].
  destruct units as [n|]; [|by left].
  case_decide as Hn; [by left|].
  right. exists u, n. cbv zeta.
  split; [done|]. split; [by destruct (decide (user_role u = "Requestor"))|].
  split; [done|].
  split.
  { by destruct (decide (upper (strip (form_get form "blood_group" ""))
                         ∈ get_all_valid_blood_groups)). }
  split; [done|]. split; [lia|]. done.
Qed.

Lemma donate_blood_inv st session method now now' rid :
  let out := donate_blood st session method now now' rid in
  (out.2 = st ∧ out.1 ≠ AcceptedOk)
  ∨ ∃ u i r r',
      get_current_user st session = Some u
      ∧ user_role u = "Donor"
      ∧ method = "POST"
      ∧ find_request (requests_list st) rid = Some (i, r)
      ∧ status r = "Requested"
      ∧ is_compatible (str_of (user_blood_group u)) (blood_group r) = true
      ∧ out.1 = AcceptedOk
      ∧ users out.2 = users st
      ∧ requests_list out.2 = <[i := r']> (requests_list st)
      ∧ donation_history out.2
        = record_donation (donation_history st) (user_email u) rid
            (blood_group r) (requestor_email r) now'
      ∧ donor_email r' = Some (user_email u)
      ∧ donor_name r' = Some (user_name u)
      ∧ status r' = "Accepted"
      ∧ accepted_at r' = Some now
      ∧ accept_frame r' = accept_frame r.
Proof.
  unfold donate_blood.
  destruct (get_current_user st session) as [u|]; [|by left].
  case_decide as Hr; [by left|].
  destruct (find_request (requests_list st) rid) as [[i r]|] eqn:Ef;
    [|by left].
  case_decide as Hs; [by left|].
  destruct (is_compatible _ _) eqn:Hc; cbn [negb]; [|by left].
  case_decide as Hm; [|by left].
  right. exists u, i, r. eexists. cbn [fst snd users requests_list
                                        App.donation_history].
  split; [done|]. split; [by destruct (decide (user_role u = "Donor"))|].
  split; [done|]. split; [done|].
  split; [by destruct (decide (status r = "Requested"))|].
  split; [done|]. split; [done|]. split; [done|]. split; [reflexivity|].
  done.
Qed.

Lemma confirm_request_inv st session method now rid :
  let out := confirm_request st session method now rid in
  (out.2 = st ∧ out.1 ≠ ConfirmedOk)
  ∨ ∃ u i r r',
      get_current_user st session = Some u
      ∧ method = "POST"
      ∧ find_request (requests_list st) rid = Some (i, r)
      ∧ requestor_email r = user_email u
      ∧ status r = "Accepted"
      ∧ out.1 = ConfirmedOk
      ∧ users out.2 = users st
      ∧ requests_list out.2 = <[i := r']> (requests_list st)
      ∧ donation_history out.2 = donation_history st
      ∧ status r' = "Confirmed"
      ∧ confirmed_at r' = Some now
      ∧ confirm_frame r' = confirm_frame r.
Proof.
  unfold confirm_request.
  destruct (get_current_user st session) as [u|]; [|by left].
  destruct (find_request (requests_list st) rid) as [[i r]|] eqn:Ef;
    [|by left].
  case_decide as Ho; [by left|].
  case_decide as Hs; [by left|].
  case_decide as Hm; [|by left].
  right. exists u, i, r. eexists. cbn [fst snd users requests_list
                                        App.donation_history].
  split; [done|]. split; [done|]. split; [done|].
  split; [by destruct (decide (requestor_email r = user_email u))|].
  split; [by destruct (decide (status r = "Accepted"))|].
  split; [done|]. split; [done|]. split; [reflexivity|]. done.
Qed.

End handlers.

(* ------------------------------------------------------------------ *)
(** ** Invariants of runs *)

Section runs.

Implicit Types (st : Store) (session : option string) (r : Request).

Lemma filter_insert_length {A} (P : A → Prop) `{!∀ x, Decision (P x)}
    (l : list A) i x y :
  l !! i = Some x →
  (List.length (filter P (<[i:=y]> l)) + (if decide (P x) then 1 else 0)
   = List.length (filter P l) + (if decide (P y) then 1 else 0))%nat.
Proof.
  revert i. induction l as [|a l IH]; intros [|i]; simpl; try done.
  - intros [= ->]. rewrite !filter_cons.
    destruct (decide (P x)), (decide (P y)); simpl; lia.
  - intros Hi. specialize (IH i Hi). rewrite !filter_cons.
    destruct (decide (P a)); simpl; lia.
Qed.

Lemma current_user_lookup st session u :
  get_current_user st session = Some u →
  ∃ e, session = Some e ∧ users st !! e = Some u.
Proof. destruct session as [e|]; simpl; [|done]. intros H. by exists e. Qed.

Lemma current_user_email st session u :
  map_Forall user_ok (users st) →
  get_current_user st session = Some u →
  users st !! user_email u = Some u.
Proof.
  intros Hok (e & -> & He)%current_user_lookup.
  destruct (Hok e u He) as [-> _]. done.
Qed.

Lemma user_ok_donor e u :
  user_ok e u → user_role u = "Donor" →
  ∃ g, user_blood_group u = Some g ∧ g ∈ get_all_valid_blood_groups.
Proof.
  intros (_ & _ & _ & _ & _ & [(_ & Hg & _)|(Hr & _)]) Hd; [done|].
  rewrite Hd in Hr. discriminate Hr.
Qed.

Lemma request_ok_users st st' r :
  users st ⊆ users st' → request_ok st r → request_ok st' r.
Proof.
  intros Hsub (Hg & Hn & Hc & Hid & (q & Hq & Hqr) & Hd).
  split; [done|]. split; [done|]. split; [done|]. split; [done|]. split.
  - exists q. split; [|done]. by eapply lookup_weaken.
  - destruct (donor_email r) as [e|]; [|done].
    destruct Hd as ((d & g & Hu & Hrest) & Hd). split; [|done].
    exists d, g. split; [|done]. by eapply lookup_weaken.
Qed.

Lemma request_ok_requested st r :
  request_ok st r → status r = "Requested" →
  donor_email r = None ∧ confirmed_at r = None.
Proof.
  intros (_ & _ & _ & _ & _ & Hd) Hs.
  destruct (donor_email r) as [e|]; [|by destruct Hd as (_ & _ & _ & ?)].
  destruct Hd as (_ & _ & [[Hs' _]|[Hs' _]]); rewrite Hs in Hs';
    discriminate Hs'.
Qed.

Lemma request_ok_accepted st r :
  request_ok st r → status r = "Accepted" → is_Some (donor_email r).
Proof.
  intros (_ & _ & _ & _ & _ & Hd) Hs.
  destruct (donor_email r) as [e|]; [by eexists|].
  destruct Hd as (Hs' & _). rewrite Hs in Hs'. discriminate Hs'.
Qed.

Lemma step_users st st' :
  step st st' → map_Forall user_ok (users st) →
  users st ⊆ users st' ∧ map_Forall user_ok (users st').
Proof.
  intros [user_type method form hashed uuid8 now
         |session method form units uuid8 now
         |session method now now' rid
         |session method now rid] Hok.
  - destruct (register_inv st user_type method form hashed uuid8 now)
      as [[-> _]|(u & _ & Hnew & Hu & _ & _ & _ & -> & _)]; [done|].
    split; [by apply insert_subseteq|]. by apply map_Forall_insert_2.
  - destruct (create_request_inv st session method form units uuid8 now)
      as [->|(u & n & _ & _ & _ & _ & _ & _ & _ & -> & _)]; done.
  - destruct (donate_blood_inv st session method now now' rid)
      as [[-> _]|(u & i & r & r' & _ & _ & _ & _ & _ & _ & _ & -> & _)];
      done.
  - destruct (confirm_request_inv st session method now rid)
      as [[-> _]|(u & i & r & r' & _ & _ & _ & _ & _ & _ & -> & _)]; done.
Qed.

Lemma step_store_ok st st' : step st st' → store_ok st → store_ok st'.
Proof.
  intros Hstep [Hu Hr].
  destruct (step_users st st' Hstep Hu) as [Hsub Hu'].
  split; [done|]. clear Hsub Hu'.
  destruct Hstep as [user_type method form hashed uuid8 now
                    |session method form units uuid8 now
                    |session method now now' rid
                    |session method now rid].
  - destruct (register_inv st user_type method form hashed uuid8 now)
      as [[-> _]|(u & _ & Hnew & _ & _ & _ & _ & Hus & -> & _)]; [done|].
    eapply Forall_impl; [exact Hr|]. intros r. apply request_ok_users.
    rewrite Hus. by apply insert_subseteq.
  - destruct (create_request_inv st session method form units uuid8 now)
      as [->|(u & n & Hcu & Hrole & _ & Hg & _ & Hn & _ & Hus & _ & ->)];
      [done|].
    apply Forall_app. split.
    + eapply Forall_impl; [exact Hr|]. intros r. apply request_ok_users.
      by rewrite Hus.
    + apply Forall_singleton. unfold request_ok. cbn.
      split; [done|]. split; [done|]. split; [done|].
      split; [by eexists|]. split; [|done].
      exists u. rewrite Hus. split; [|done].
      by eapply current_user_email.
  - destruct (donate_blood_inv st session method now now' rid)
      as [[-> _]|(u & i & r & r' & Hcu & Hrole & _ & Hf & Hs & Hc & _
                  & Hus & -> & _ & Hde & Hdn & Hs' & Ha & Hfr)]; [done|].
    apply find_request_Some in Hf as [Hi _].
    pose proof (proj1 (Forall_lookup _ _) Hr i r Hi) as Hri.
    destruct (request_ok_requested _ _ Hri Hs) as [_ Hconf].
    apply Forall_insert.
    + eapply Forall_impl; [exact Hr|]. intros q. apply request_ok_users.
      by rewrite Hus.
    + destruct Hri as (Hg & Hn & Hci & Hid & (q & Hq & Hqr & Hqn) & _).
      unfold accept_frame in Hfr. injection Hfr as E1 E2 E3 E4 E5 E6 E7 E8.
      unfold request_ok. rewrite E1, E2, E3, E4, E5, E7, Hde, Hus.
      split; [done|]. split; [done|]. split; [done|]. split; [done|].
      split; [by exists q|].
      pose proof (current_user_email _ _ _ Hu Hcu) as Hlook.
      destruct (user_ok_donor _ _ (Hu _ _ Hlook) Hrole) as (g & Hbg & _).
      split; [|split].
      * exists u, g. rewrite Hbg in Hc. done.
      * rewrite Ha. by eexists.
      * left. by rewrite E8.
  - destruct (confirm_request_inv st session method now rid)
      as [[-> _]|(u & i & r & r' & Hcu & _ & Hf & Ho & Hs & _
                  & Hus & -> & _ & Hs' & Hc & Hfr)]; [done|].
    apply find_request_Some in Hf as [Hi _].
    pose proof (proj1 (Forall_lookup _ _) Hr i r Hi) as Hri.
    destruct (request_ok_accepted _ _ Hri Hs) as [e He].
    apply Forall_insert.
    + eapply Forall_impl; [exact Hr|]. intros q. apply request_ok_users.
      by rewrite Hus.
    + destruct Hri as (Hg & Hn & Hci & Hid & (q & Hq & Hqr & Hqn) & Hd).
      rewrite He in Hd. destruct Hd as (Hdon & Hacc & _).
      unfold confirm_frame in Hfr.
      injection Hfr as E1 E2 E3 E4 E5 E6 E7 E8 E9 E10.
      unfold request_ok. rewrite E1, E2, E3, E4, E5, E6, E7, E9, E10, He, Hus.
      split; [done|]. split; [done|]. split; [done|]. split; [done|].
      split; [by exists q|]. split; [done|]. split; [done|].
      right. split; [done|]. rewrite Hc. by eexists.
Qed.

Lemma reachable_store_ok st : reachable st → store_ok st.
Proof.
  induction 1 as [|st st' _ IH Hstep].
  - split; [apply map_Forall_empty|constructor].
  - by apply (step_store_ok st st').
Qed.

End runs.

Section histories.

Implicit Types (st : Store) (session : option string) (r : Request).

Lemma record_of_identity r r' d :
  identity r' = identity r → record_of r d → record_of r' d.
Proof.
  unfold identity, record_of. intros [= E1 E2 _ E4 _ _ _].
  by rewrite E1, E2, E4.
Qed.

Lemma history_ok_insert st (h : gmap string (list DonationRecord)) i r r' :
  history_ok st →
  requests_list st !! i = Some r →
  donor_email r' = donor_email r → identity r' = identity r →
  history_ok {| users := users st;
                requests_list := <[i := r']> (requests_list st);
                donation_history := donation_history st |}.
Proof.
  intros Hh Hi Hd Hid e. destruct (Hh e) as [Hlen Hrec]. cbn. split.
  - rewrite Hlen.
    pose proof (filter_insert_length (λ q, donor_email q = Some e)
                  (requests_list st) i r r' Hi) as Hcount.
    cbn beta in Hcount. rewrite Hd in Hcount.
    destruct (decide (donor_email r = Some e)); lia.
  - intros d Hdin. destruct (Hrec d Hdin) as (q & Hq & Hqe & Hqd).
    apply list_elem_of_lookup in Hq as [j Hj].
    destruct (decide (j = i)) as [->|Hne].
    + assert (q = r) as -> by congruence.
      exists r'. split; [|split].
      * apply list_elem_of_lookup. exists i.
        apply list_lookup_insert_eq. by eapply lookup_lt_Some.
      * by rewrite Hd.
      * by apply (record_of_identity r).
    + exists q. split; [|done].
      apply list_elem_of_lookup. exists j.
      by rewrite list_lookup_insert_ne.
Qed.

Lemma step_history_ok st st' :
  step st st' → store_ok st → history_ok st → history_ok st'.
Proof.
  intros Hstep [Hu Hr] Hh.
  destruct Hstep as [user_type method form hashed uuid8 now
                    |session method form units uuid8 now
                    |session method now now' rid
                    |session method now rid].
  - destruct (register_inv st user_type method form hashed uuid8 now)
      as [[-> _]|(u & _ & _ & _ & _ & _ & _ & _ & Hrq & Hhi)]; [done|].
    intros e. rewrite Hrq, Hhi. apply Hh.
  - destruct (create_request_inv st session method form units uuid8 now)
      as [->|(u & n & _ & _ & _ & _ & _ & _ & _ & _ & Hhi & Hrq)]; [done|].
    intros e. rewrite Hrq, Hhi. destruct (Hh e) as [Hlen Hrec]. split.
    + rewrite filter_app, filter_cons_False, filter_nil, app_nil_r by done.
      done.
    + intros d Hd. destruct (Hrec d Hd) as (q & Hq & Hrest).
      exists q. split; [|done]. apply elem_of_app. by left.
  - destruct (donate_blood_inv st session method now now' rid)
      as [[-> _]|(u & i & r & r' & Hcu & Hrole & _ & Hf & Hs & Hc & _
                  & Hus & Hrq & Hhi & Hde & Hdn & Hs' & Ha & Hfr)]; [done|].
    apply find_request_Some in Hf as [Hi Hrid].
    pose proof (proj1 (Forall_lookup _ _) Hr i r Hi) as Hri.
    destruct (request_ok_requested _ _ Hri Hs) as [Hnone _].
    assert (Hid : identity r' = identity r).
    { unfold accept_frame in Hfr. unfold identity.
      injection Hfr as E1 E2 E3 E4 E5 E6 E7 E8. congruence. }
    intros e. rewrite Hrq, Hhi. destruct (Hh e) as [Hlen Hrec].
    pose proof (filter_insert_length (λ q, donor_email q = Some e)
                  (requests_list st) i r r' Hi) as Hcount.
    cbn beta in Hcount. rewrite Hnone, Hde in Hcount.
    rewrite decide_False in Hcount by done.
    assert (Hold : ∀ d, d ∈ default [] (donation_history st !! e) →
              ∃ q, q ∈ <[i:=r']> (requests_list st)
                   ∧ donor_email q = Some e ∧ record_of q d).
    { intros d Hd. destruct (Hrec d Hd) as (q & Hq & Hqe & Hqd).
      apply list_elem_of_lookup in Hq as [j Hj].
      assert (j ≠ i) by (intros ->; congruence).
      exists q. split; [|done]. apply list_elem_of_lookup. exists j.
      by rewrite list_lookup_insert_ne. }
    destruct (decide (e = user_email u)) as [->|Hne].
    + rewrite record_donation_lookup. cbn.
      rewrite decide_True in Hcount by done. split.
      * rewrite length_app. simpl. lia.
      * intros d [Hd| ->%list_elem_of_singleton]%elem_of_app;
          [by apply Hold|].
        exists r'. split; [|split; [done|]].
        -- apply list_elem_of_lookup. exists i.
           apply list_lookup_insert_eq. by eapply lookup_lt_Some.
        -- apply (record_of_identity r); [done|]. by unfold record_of.
    + rewrite record_donation_other by done.
      rewrite decide_False in Hcount by congruence.
      split; [lia|done].
  - destruct (confirm_request_inv st session method now rid)
      as [[-> _]|(u & i & r & r' & Hcu & _ & Hf & Ho & Hs & _
                  & Hus & Hrq & Hhi & Hs' & Hc & Hfr)]; [done|].
    apply find_request_Some in Hf as [Hi _].
    assert (Hid : identity r' = identity r).
    { unfold confirm_frame in Hfr. unfold identity.
      injection Hfr as E1 E2 E3 E4 E5 E6 E7 E8 E9 E10. congruence. }
    assert (Hd : donor_email r' = donor_email r).
    { unfold confirm_frame in Hfr. by injection Hfr. }
    pose proof (history_ok_insert st (donation_history st) i r r'
                  Hh Hi Hd Hid) as Hnew.
    intros e. rewrite Hrq, Hhi. apply (Hnew e).
Qed.

Lemma reachable_history_ok st : reachable st → history_ok st.
Proof.
  induction 1 as [|st st' Hreach IH Hstep].
  - intros e. cbn. rewrite lookup_empty. cbn. split; [done|].
    by intros d ?%elem_of_nil.
  - apply (step_history_ok st st'); [done| |done].
    by apply reachable_store_ok.
Qed.

Lemma moved_on_refl r : moved_on r r.
Proof. split; [done|by left]. Qed.

Lemma moved_on_trans r1 r2 r3 :
  moved_on r1 r2 → moved_on r2 r3 → moved_on r1 r3.
Proof.
  intros [Hid1 H1] [Hid2 H2]. split; [congruence|].
  destruct H1 as [->|[[Hs1 Hs2]|(Hs1 & Hs2 & Hd & Hn & Ha)]]; [done| |].
  - destruct H2 as [->|[[Hs3 _]|(Hs3 & Hs4 & _)]].
    + right. by left.
    + apply elem_of_cons in Hs2 as [Hs2|Hs2%list_elem_of_singleton];
        rewrite Hs3 in Hs2; discriminate Hs2.
    + right. left. split; [done|]. rewrite Hs4.
      apply list_elem_of_further, list_elem_of_here.
  - destruct H2 as [->|[[Hs3 _]|(Hs3 & _)]].
    + right. right. done.
    + rewrite Hs2 in Hs3. discriminate Hs3.
    + rewrite Hs2 in Hs3. discriminate Hs3.
Qed.

Lemma step_moved_on st st' :
  step st st' →
  users st ⊆ users st'
  ∧ (∀ i r, requests_list st !! i = Some r →
            ∃ r', requests_list st' !! i = Some r' ∧ moved_on r r')
  ∧ (∀ e l, donation_history st !! e = Some l →
            ∃ l', donation_history st' !! e = Some (l ++ l')%list).
Proof.
  assert (Hsame : ∀ s : Store,
    users s ⊆ users s
    ∧ (∀ i r, requests_list s !! i = Some r →
              ∃ r', requests_list s !! i = Some r' ∧ moved_on r r')
    ∧ (∀ e l, donation_history s !! e = Some l →
              ∃ l', donation_history s !! e = Some (l ++ l')%list)).
  { intros s. split; [done|]. split.
    - intros i r Hi. exists r. split; [done|apply moved_on_refl].
    - intros e l He. exists []. by rewrite app_nil_r. }
  assert (Hins : ∀ (l : list Request) i r' j r,
    (∀ q, l !! i = Some q → moved_on q r') →
    l !! j = Some r →
    ∃ r'', <[i:=r']> l !! j = Some r'' ∧ moved_on r r'').
  { intros l i r' j r Hmove Hj. destruct (decide (j = i)) as [->|Hne].
    - exists r'. split; [|by apply Hmove].
      apply list_lookup_insert_eq. by eapply lookup_lt_Some.
    - exists r. rewrite list_lookup_insert_ne by done.
      split; [done|apply moved_on_refl]. }
  intros [user_type method form hashed uuid8 now
         |session method form units uuid8 now
         |session method now now' rid
         |session method now rid].
  - destruct (register_inv st user_type method form hashed uuid8 now)
      as [[-> _]|(u & _ & Hnew & _ & _ & _ & _ & Hus & Hrq & Hhi)];
      [apply Hsame|].
    rewrite Hus, Hrq, Hhi. split; [by apply insert_subseteq|].
    apply (Hsame st).
  - destruct (create_request_inv st session method form units uuid8 now)
      as [->|(u & n & _ & _ & _ & _ & _ & _ & _ & Hus & Hhi & Hrq)];
      [apply Hsame|].
    rewrite Hus, Hrq, Hhi. split; [done|]. split; [|apply (Hsame st)].
    intros i r Hi. exists r. split; [|apply moved_on_refl].
    by apply lookup_app_l_Some.
  - destruct (donate_blood_inv st session method now now' rid)
      as [[-> _]|(u & i & r & r' & _ & _ & _ & Hf & Hs & _ & _
                  & Hus & Hrq & Hhi & _ & _ & Hs' & _ & Hfr)];
      [apply Hsame|].
    apply find_request_Some in Hf as [Hi _].
    rewrite Hus, Hrq, Hhi. split; [done|]. split.
    + intros j q Hj. apply Hins; [|done].
      intros q' Hq'. assert (q' = r) as -> by congruence. split.
      * unfold accept_frame in Hfr. unfold identity.
        injection Hfr as E1 E2 E3 E4 E5 E6 E7 E8. congruence.
      * right. left. split; [done|]. rewrite Hs'. apply list_elem_of_here.
    + intros e l He. destruct (decide (e = user_email u)) as [->|Hne].
      * rewrite record_donation_lookup, He. cbn. by eexists.
      * rewrite record_donation_other by done. exists [].
        by rewrite app_nil_r.
  - destruct (confirm_request_inv st session method now rid)
      as [[-> _]|(u & i & r & r' & _ & _ & Hf & _ & Hs & _
                  & Hus & Hrq & Hhi & Hs' & _ & Hfr)];
      [apply Hsame|].
    apply find_request_Some in Hf as [Hi _].
    rewrite Hus, Hrq, Hhi. split; [done|]. split; [|apply (Hsame st)].
    intros j q Hj. apply Hins; [|done].
    intros q' Hq'. assert (q' = r) as -> by congruence.
    unfold confirm_frame in Hfr.
    injection Hfr as E1 E2 E3 E4 E5 E6 E7 E8 E9 E10. split.
    + unfold identity. congruence.
    + right. right. done.
Qed.

Lemma run_moved_on st st' :
  rtc step st st' →
  users st ⊆ users st'
  ∧ (∀ i r, requests_list st !! i = Some r →
            ∃ r', requests_list st' !! i = Some r' ∧ moved_on r r')
  ∧ (∀ e l, donation_history st !! e = Some l →
            ∃ l', donation_history st' !! e = Some (l ++ l')%list).
Proof.
  induction 1 as [st|st st1 st2 Hstep _ (IHu & IHr & IHh)].
  - split; [done|]. split.
    + intros i r Hi. exists r. split; [done|apply moved_on_refl].
    + intros e l He. exists []. by rewrite app_nil_r.
  - destruct (step_moved_on _ _ Hstep) as (Hu & Hr & Hh).
    split; [by etrans|]. split.
    + intros i r Hi. destruct (Hr i r Hi) as (r1 & Hi1 & Hm1).
      destruct (IHr i r1 Hi1) as (r2 & Hi2 & Hm2).
      exists r2. split; [done|]. by eapply moved_on_trans.
    + intros e l He. destruct (Hh e l He) as (l1 & He1).
      destruct (IHh e _ He1) as (l2 & He2).
      exists (l1 ++ l2)%list. by rewrite app_assoc.
Qed.

End histories.

(* ------------------------------------------------------------------ *)
(** ** Registration and sessions *)

Section accounts.

Implicit Types (st : Store) (session : option string).

Lemma register_needs_credentials st user_type method form hashed uuid8 now :
  (register st user_type method form hashed uuid8 now).1
  = Redirect "login_type" "Registration successful! Please log in." "success"
  → lower (strip (form_get form "email" "")) ≠ ""
    ∧ form_get form "password" "" ≠ "".
Proof.
  unfold register. repeat case_decide; intros Heq; try discriminate Heq; tauto.
Qed.

(** X8. For an ASCII user type and ASCII name, email and blood group
    fields, [register] succeeds exactly when the user type is donor or
    requestor, the method is POST, name, email and password are non-empty
    after trimming, a donor's blood group is valid and the canonical email
    is not yet registered; the new user is then stored under the canonical
    email and nothing else changes. Whatever the input, a registration
    that does not succeed leaves the store untouched, and no registration
    replaces an existing user. *)
Theorem register_success_iff st user_type method form hashed uuid8 now :
  let out := register st user_type method form hashed uuid8 now in
  let name := strip (form_get form "name" "") in
  let email := lower (strip (form_get form "email" "")) in
  let group := upper (strip (form_get form "blood_group" "")) in
  let registered :=
    Redirect "login_type" "Registration successful! Please log in."
      "success" in
  (ascii_text user_type = true →
   ascii_fields form ["name"; "email"; "blood_group"] →
   (out.1 = registered
    ↔ lower user_type ∈ ["donor"; "requestor"] ∧ method = "POST"
      ∧ name ≠ "" ∧ email ≠ "" ∧ form_get form "password" "" ≠ ""
      ∧ (lower user_type = "donor" → group ∈ get_all_valid_blood_groups)
      ∧ users st !! email = None)
   ∧ (out.1 = registered →
      ∃ u, users out.2 = <[email := u]> (users st)
           ∧ user_ok email u ∧ user_name u = name
           ∧ user_password u = hashed
           ∧ requests_list out.2 = requests_list st
           ∧ donation_history out.2 = donation_history st))
  ∧ (out.1 ≠ registered → out.2 = st)
  ∧ (∀ e u, users st !! e = Some u → users out.2 !! e = Some u).
Proof.
  cbv zeta.
  pose proof (register_inv st user_type method form hashed uuid8 now) as Hinv.
  cbv zeta in Hinv. split; [intros _ _; split|split].
  - clear Hinv. unfold register.
    case_decide as Ht; [split; [done|tauto]|].
    case_decide as Hm; [|split; [done|tauto]].
    case_decide as Hreq; [split; [done|tauto]|].
    case_decide as Hbg; [split; [done|]|].
    { intros (_ & _ & _ & _ & _ & Hv & _). destruct Hbg as [Hd He].
      specialize (Hv Hd). rewrite He in Hv.
      assert (Hno : "" ∉ get_all_valid_blood_groups)
        by (apply (bool_decide_unpack _); by vm_compute).
      by destruct (Hno Hv). }
    case_decide as Hvalid; [split; [done|tauto]|].
    case_decide as Hdup.
    { split; [done|]. intros (_ & _ & _ & _ & _ & _ & Hn).
      rewrite Hn in Hdup. by destruct Hdup. }
    split; [intros _|done].
    split; [by destruct (decide (lower user_type ∈ ["donor"; "requestor"]))|].
    split; [done|].
    split; [tauto|]. split; [tauto|]. split; [tauto|].
    split; [|by apply eq_None_not_Some].
    intros Hd.
    destruct (decide (upper (strip (form_get form "blood_group" ""))
                      ∈ get_all_valid_blood_groups)); [done|tauto].
  - intros Hreg.
    destruct Hinv as [[_ ?]|(u & _ & _ & ? & ? & ? & _ & ? & ? & ?)];
      [done|]. by exists u.
  - intros Hne. by destruct Hinv as [[? _]|(u & ? & _)].
  - intros e u He. destruct Hinv as [[-> _]|(v & _ & Hn & _ & _ & _ & _ & -> & _)];
      [done|].
    rewrite lookup_insert_ne; [done|]. intros <-. congruence.
Qed.

Lemma register_success_iff_witness :
  ∃ u, users Scenario.s2
       = <[ "dana@bank.org" := u ]> (users Scenario.s1)
       ∧ user_ok "dana@bank.org" u ∧ user_name u = "Dana".
Proof.
  destruct (proj1 (register_success_iff Scenario.s1 "donor" "POST"
     {[ "name" := "Dana"; "email" := "dana@bank.org"; "password" := "pw";
        "blood_group" := "b-" ]}
     "hash-d1" "11112222" "2026-01-05 09:01:00") eq_refl) as [_ Hsucc].
  - repeat (constructor; [vm_compute; reflexivity|]). constructor.
  - destruct Hsucc as (u & Hu & Hok & Hname & _); [vm_compute; reflexivity|].
    exists u. split; [exact Hu|]. split; [exact Hok|exact Hname].
Defined.

(** X9. In every store reached by a run, each user is stored under the
    user's own email, which is trimmed, lower-case and non-empty; the name
    is non-empty; a donor has a valid blood group and a requestor has
    none. *)
Theorem reachable_users_ok st e u :
  reachable st → users st !! e = Some u → user_ok e u.
Proof. intros [Hu _]%reachable_store_ok He. by apply Hu. Qed.

Lemma reachable_users_ok_witness :
  ∃ u, users Scenario.s6 !! Scenario.dana = Some u
       ∧ user_ok Scenario.dana u.
Proof.
  eexists. split; [vm_compute; reflexivity|].
  apply (reachable_users_ok Scenario.s6); [exact scenario_reachable|].
  vm_compute. reflexivity.
Defined.

(** X10. Who has just registered can log in: after a successful
    registration with an ASCII user type and ASCII name, email and blood
    group fields, a POST to [login] with the same user type and the same
    form, whose password the verifier accepts against the stored hash,
    succeeds and opens a session under which [get_current_user] is the
    registered user. *)
Theorem register_then_login verify st session user_type form hashed uuid8
    now :
  let out := register st user_type "POST" form hashed uuid8 now in
  let email := lower (strip (form_get form "email" "")) in
  ascii_text user_type = true →
  ascii_fields form ["name"; "email"; "blood_group"] →
  out.1 = Redirect "login_type" "Registration successful! Please log in."
            "success" →
  verify hashed (form_get form "password" "") = true →
  ∃ u, users out.2 !! email = Some u
       ∧ login verify out.2 session user_type "POST" form
         = (Redirect "dashboard" ("Welcome back, " +:+ user_name u +:+ "!")
              "success", Some email)
       ∧ get_current_user out.2 (Some email) = Some u
       ∧ user_name u = strip (form_get form "name" "").
Proof.
  cbv zeta. intros _ _ Hreg Hver.
  destruct (register_inv st user_type "POST" form hashed uuid8 now)
    as [[_ ?]|(u & _ & _ & Hok & Hname & Hpw & Hrole & Hus & _)]; [done|].
  cbv zeta in *. exists u.
  assert (Hlook : users (register st user_type "POST" form hashed uuid8 now).2
                  !! lower (strip (form_get form "email" "")) = Some u).
  { rewrite Hus. apply lookup_insert_eq. }
  split; [done|]. split; [|by split].
  destruct (register_needs_credentials _ _ _ _ _ _ _ Hreg) as [He Hp].
  unfold login. rewrite decide_True by done. cbv zeta.
  rewrite decide_False by tauto. rewrite Hlook, Hpw, Hver. cbn [negb].
  rewrite Hrole. by rewrite decide_False by (by intros ?).
Qed.

Lemma register_then_login_witness :
  ∃ u, login (λ stored password,
                bool_decide (stored = "hash-d1" ∧ password = "pw"))
         Scenario.s2 None "donor" "POST"
         {[ "name" := "Dana"; "email" := "dana@bank.org"; "password" := "pw";
            "blood_group" := "b-" ]}
       = (Redirect "dashboard" ("Welcome back, " +:+ user_name u +:+ "!")
            "success", Some Scenario.dana)
       ∧ user_name u = "Dana".
Proof.
  destruct (register_then_login
              (λ stored password,
                 bool_decide (stored = "hash-d1" ∧ password = "pw"))
              Scenario.s1 None "donor"
              {[ "name" := "Dana"; "email" := "dana@bank.org";
                 "password" := "pw"; "blood_group" := "b-" ]}
              "hash-d1" "11112222" "2026-01-05 09:01:00")
    as (u & _ & Hlogin & _ & Hname); try (vm_compute; reflexivity).
  - repeat (constructor; [vm_compute; reflexivity|]). constructor.
  - exists u. split; [exact Hlogin|exact Hname].
Defined.

Lemma login_inv verify st session user_type method form :
  let out := login verify st session user_type method form in
  let email := lower (strip (form_get form "email" "")) in
  (out.2 = session ∧ ∀ m, out.1 ≠ Redirect "dashboard" m "success")
  ∨ ∃ u, method = "POST"
         ∧ email ≠ ""
         ∧ users st !! email = Some u
         ∧ verify (user_password u) (form_get form "password" "") = true
         ∧ user_role u = (if decide (lower user_type = "donor") then "Donor"
                          else "Requestor")
         ∧ out = (Redirect "dashboard"
                    ("Welcome back, " +:+ user_name u +:+ "!") "success",
                  Some email).
Proof.
  unfold login. cbv zeta.
  case_decide as Hm; [|by left].
  case_decide as He; [by left|].
  destruct (users st !! _) as [u|] eqn:Eu; [|by left].
  destruct (verify _ _) eqn:Ev; cbn [negb]; [|by left].
  case_decide as Hr; [by left|].
  right. exists u. split; [done|]. split; [tauto|]. split; [done|].
  split; [done|]. split; [|done].
  by destruct (decide (user_role u
                       = (if decide (lower user_type = "donor") then "Donor"
                          else "Requestor"))).
Qed.

(** X11. For an ASCII login type and an ASCII email field, [login]
    either leaves the session as it found it, without the welcome message,
    or it was a POST naming a registered user whose stored hash the
    verifier accepts for the submitted password and whose role is the one
    of the login type; only then does the session become that user's
    canonical email. *)
Theorem login_opens_session_only_when_verified verify st session user_type
    method form :
  let out := login verify st session user_type method form in
  let email := lower (strip (form_get form "email" "")) in
  ascii_text user_type = true →
  ascii_fields form ["email"] →
  (out.2 = session ∧ ∀ m, out.1 ≠ Redirect "dashboard" m "success")
  ∨ ∃ u, method = "POST"
         ∧ users st !! email = Some u
         ∧ verify (user_password u) (form_get form "password" "") = true
         ∧ user_role u = (if decide (lower user_type = "donor") then "Donor"
                          else "Requestor")
         ∧ out = (Redirect "dashboard"
                    ("Welcome back, " +:+ user_name u +:+ "!") "success",
                  Some email).
Proof.
  intros out email _ _. subst out email.
  destruct (login_inv verify st session user_type method form)
    as [?|(u & ? & _ & ?)]; [by left|]. right. by exists u.
Qed.

Lemma login_opens_session_only_when_verified_witness :
  (login (λ _ _, false) Scenario.s3 (Some Scenario.rita) "donor" "POST"
     {[ "email" := " Dana@bank.org"; "password" := "guess" ]}).2
  = Some Scenario.rita.
Proof.
  destruct (login_opens_session_only_when_verified (λ _ _, false)
              Scenario.s3 (Some Scenario.rita) "donor" "POST"
              {[ "email" := " Dana@bank.org"; "password" := "guess" ]}
              eq_refl) as [[Hkeep _]|(u & _ & _ & Hver & _)].
  - repeat (constructor; [vm_compute; reflexivity|]). constructor.
  - exact Hkeep.
  - discriminate Hver.
Defined.

(** X12. [logout] raises [KeyError] exactly when the session names an
    email that [users] does not hold; with a session of a known user it
    clears the session, and without a session it only redirects. *)
Theorem logout_raises_iff st session :
  (∀ e, logout st session = KeyError e
        ↔ session = Some e ∧ users st !! e = None)
  ∧ (is_Some (get_current_user st session) →
     logout st session
     = LoggedOut "index" "You have been logged out. Goodbye!" "info" None)
  ∧ (session = None → logout st session = NothingToDo "index" None).
Proof.
  unfold logout, get_current_user. destruct session as [e'|].
  - destruct (users st !! e') as [u|] eqn:Eu.
    + split; [|split; [done|done]]. intros e. split; [done|].
      intros [[= ->] He]. congruence.
    + split; [|split; [by intros [? ?]|done]]. intros e. split.
      * by intros [= ->].
      * by intros [[= ->] _].
  - split; [|split; [by intros [? ?]|done]]. intros e. split; [done|].
    by intros [? _].
Qed.

Lemma logout_raises_iff_witness :
  logout empty_store (Some Scenario.dana) = KeyError Scenario.dana.
Proof.
  apply (proj1 (logout_raises_iff empty_store (Some Scenario.dana))).
  split; reflexivity.
Defined.

(** X13. A session opened by [login] stays good: after any further run of
    the application [get_current_user] still finds the same user under it
    and [logout] clears it without raising. *)
Theorem session_survives_run verify st session user_type method form st' m :
  let out := login verify st session user_type method form in
  out.1 = Redirect "dashboard" m "success" →
  rtc step st st' →
  ∃ e u, out.2 = Some e
         ∧ users st !! e = Some u
         ∧ get_current_user st' out.2 = Some u
         ∧ logout st' out.2
           = LoggedOut "index" "You have been logged out. Goodbye!" "info"
               None.
Proof.
  cbv zeta. intros Hwelcome Hrun.
  destruct (login_inv verify st session user_type method form)
    as [[_ Hno]|(u & _ & _ & Hu & _ & _ & Hout)]; [by destruct (Hno m)|].
  cbv zeta in Hout. rewrite Hout. cbn [snd].
  destruct (run_moved_on _ _ Hrun) as (Hsub & _).
  pose proof (lookup_weaken _ _ _ _ Hu Hsub) as Hu'.
  eexists _, u. split; [done|]. split; [done|].
  unfold logout, get_current_user. by rewrite Hu'.
Qed.

Lemma session_survives_run_witness :
  logout Scenario.s6 (Some Scenario.rita)
  = LoggedOut "index" "You have been logged out. Goodbye!" "info" None.
Proof.
  destruct (session_survives_run (λ _ _, true) Scenario.s1 None "requestor"
              "POST" {[ "email" := "rita@bank.org"; "password" := "pw" ]}
              Scenario.s6 "Welcome back, Rita!")
    as (e & u & He & _ & _ & Hout).
  - vm_compute. reflexivity.
  - eapply rtc_l; [apply step_register|].
    eapply rtc_l; [apply step_register|].
    eapply rtc_l; [apply step_create|].
    eapply rtc_l; [apply step_accept|].
    eapply rtc_l; [apply step_confirm|].
    apply rtc_refl.
  - exact Hout.
Defined.

End accounts.

(* ------------------------------------------------------------------ *)
(** ** What runs keep and what reached stores satisfy *)

Section reached.

Implicit Types (st : Store) (session : option string) (r : Request).

Lemma scenario_run : rtc step Scenario.s4 Scenario.s6.
Proof.
  apply (rtc_l _ _ Scenario.s5); [apply step_accept|].
  apply (rtc_l _ _ Scenario.s6); [apply step_confirm|].
  apply rtc_refl.
Qed.

Lemma valid_group_canonical g :
  g ∈ get_all_valid_blood_groups → upper (strip g) = g.
Proof.
  by intros [->|[->|[->|[->|[->|[->|[->| ->]]]]]]]%valid_groups_cases.
Qed.

(** X14. A run never removes anything: every user stays as registered,
    every request keeps its position and its id, blood group, units,
    requestor, creation time and compatibility snapshot, and every
    donor's log is only extended at its end. *)
Theorem run_keeps_records st st' :
  rtc step st st' →
  users st ⊆ users st'
  ∧ (∀ i r, requests_list st !! i = Some r →
            ∃ r', requests_list st' !! i = Some r'
                  ∧ identity r' = identity r)
  ∧ (∀ e l, donation_history st !! e = Some l →
            ∃ l', donation_history st' !! e = Some (l ++ l')%list).
Proof.
  intros (Hu & Hr & Hh)%run_moved_on. split; [done|]. split; [|done].
  intros i r Hi. destruct (Hr i r Hi) as (r' & Hi' & Hid & _). by exists r'.
Qed.

Lemma run_keeps_records_witness :
  ∃ r', requests_list Scenario.s6 !! 0%nat = Some r'
        ∧ identity r' = identity Scenario.requested.
Proof.
  apply (proj1 (proj2 (run_keeps_records Scenario.s4 Scenario.s6
                         scenario_run)) 0%nat Scenario.requested).
  vm_compute. reflexivity.
Defined.

(** X15. Along a run the status of a request only moves forward: a
    Confirmed request is never changed again; an Accepted request stays
    Accepted or becomes Confirmed and keeps its donor, donor name and
    acceptance time; a request found Requested afterwards has not been
    touched. *)
Theorem status_only_advances st st' i r r' :
  rtc step st st' →
  requests_list st !! i = Some r →
  requests_list st' !! i = Some r' →
  (status r = "Confirmed" → r' = r)
  ∧ (status r = "Accepted" →
     status r' ∈ ["Accepted"; "Confirmed"]
     ∧ donor_email r' = donor_email r ∧ donor_name r' = donor_name r
     ∧ accepted_at r' = accepted_at r)
  ∧ (status r' = "Requested" → r' = r).
Proof.
  intros (_ & Hr & _)%run_moved_on Hi Hi'.
  destruct (Hr i r Hi) as (q & Hq & _ & Hm).
  assert (q = r') as -> by congruence. clear Hr Hq.
  split; [|split].
  - intros Hs. destruct Hm as [?|[[Hs' _]|(Hs' & _)]]; [done| |];
      rewrite Hs in Hs'; discriminate Hs'.
  - intros Hs. destruct Hm as [->|[[Hs' _]|(_ & Hs' & ? & ? & ?)]].
    + split; [|done]. rewrite Hs. apply list_elem_of_here.
    + rewrite Hs in Hs'. discriminate Hs'.
    + split; [|done]. rewrite Hs'.
      apply list_elem_of_further, list_elem_of_here.
  - intros Hs. destruct Hm as [?|[[_ Hs']|(_ & Hs' & _)]]; [done| |].
    + rewrite Hs in Hs'.
      apply elem_of_cons in Hs' as [Hs'|Hs'%list_elem_of_singleton];
        discriminate Hs'.
    + rewrite Hs in Hs'. discriminate Hs'.
Qed.

Lemma status_only_advances_witness :
  status Scenario.confirmed ∈ ["Accepted"; "Confirmed"]
  ∧ donor_email Scenario.confirmed = donor_email Scenario.accepted
  ∧ donor_name Scenario.confirmed = donor_name Scenario.accepted
  ∧ accepted_at Scenario.confirmed = accepted_at Scenario.accepted.
Proof.
  refine (proj1 (proj2 (status_only_advances Scenario.s5 Scenario.s6 0%nat
                          Scenario.accepted Scenario.confirmed _ _ _))
            eq_refl).
  - apply (rtc_l _ _ Scenario.s6); [apply step_confirm|apply rtc_refl].
  - vm_compute. reflexivity.
  - vm_compute. reflexivity.
Defined.

(** X16. Every request of a reached store is well formed: its blood group
    is valid and among its own compatibility snapshot, which is the table's
    list for that group; its units are positive; its id starts with req_;
    its requestor is a registered Requestor; its status is Requested,
    Accepted or Confirmed; it has an acceptance time exactly when it is
    past Requested and a confirmation time exactly when Confirmed. *)
Theorem reachable_requests_well_formed st r :
  reachable st → r ∈ requests_list st →
  blood_group r ∈ get_all_valid_blood_groups
  ∧ (0 < units r)%Z
  ∧ compatibility_info r = get_compatible_blood_groups (blood_group r)
  ∧ blood_group r ∈ compatibility_info r
  ∧ (∃ uuid8, req_id r = "req_" +:+ uuid8)
  ∧ (∃ q, users st !! requestor_email r = Some q
          ∧ user_role q = "Requestor" ∧ user_name q = requestor_name r)
  ∧ status r ∈ ["Requested"; "Accepted"; "Confirmed"]
  ∧ (is_Some (accepted_at r) ↔ status r ≠ "Requested")
  ∧ (is_Some (confirmed_at r) ↔ status r = "Confirmed").
Proof.
  intros [_ Hr]%reachable_store_ok Hin.
  destruct (proj1 (Forall_forall _ _) Hr r Hin)
    as (Hg & Hn & Hc & Hid & Hq & Hd).
  split; [done|]. split; [done|]. split; [done|]. split.
  { rewrite Hc, get_compatible_donors_of, (valid_group_canonical _ Hg).
    by apply donors_of_refl. }
  split; [done|]. split; [done|].
  destruct (donor_email r) as [e|].
  - destruct Hd as (_ & Ha & [[Hs Hc']|[Hs Hc']]); rewrite Hs.
    + split; [apply list_elem_of_further, list_elem_of_here|].
      split; [done|]. rewrite Hc'. split; [by intros [? ?]|done].
    + split; [do 2 apply list_elem_of_further; apply list_elem_of_here|].
      done.
  - destruct Hd as (Hs & _ & Ha & Hc'). rewrite Hs, Ha, Hc'.
    split; [apply list_elem_of_here|].
    split; (split; [by intros [? ?]|done]).
Qed.

Lemma reachable_requests_well_formed_witness :
  blood_group Scenario.confirmed ∈ compatibility_info Scenario.confirmed
  ∧ (is_Some (confirmed_at Scenario.confirmed)
     ↔ status Scenario.confirmed = "Confirmed").
Proof.
  assert (H : Scenario.confirmed ∈ requests_list Scenario.s6).
  { replace (requests_list Scenario.s6) with [Scenario.confirmed]
      by (vm_compute; reflexivity).
    apply list_elem_of_here. }
  destruct (reachable_requests_well_formed Scenario.s6 Scenario.confirmed
              scenario_reachable H)
    as (_ & _ & _ & H4 & _ & _ & _ & _ & H9).
  split; [exact H4|exact H9].
Defined.

(** X17. In every reached store, a request that names a donor names a
    registered Donor whose name it carries and whose blood group
    [is_compatible] accepts for the request's group. *)
Theorem accepted_donor_is_compatible st r e :
  reachable st → r ∈ requests_list st → donor_email r = Some e →
  ∃ d g, users st !! e = Some d
         ∧ user_role d = "Donor"
         ∧ donor_name r = Some (user_name d)
         ∧ user_blood_group d = Some g
         ∧ is_compatible g (blood_group r) = true.
Proof.
  intros [_ Hr]%reachable_store_ok Hin He.
  destruct (proj1 (Forall_forall _ _) Hr r Hin) as (_ & _ & _ & _ & _ & Hd).
  rewrite He in Hd. by destruct Hd as [? _].
Qed.

Lemma accepted_donor_is_compatible_witness :
  ∃ d g, users Scenario.s6 !! Scenario.dana = Some d
         ∧ user_role d = "Donor"
         ∧ donor_name Scenario.confirmed = Some (user_name d)
         ∧ user_blood_group d = Some g
         ∧ is_compatible g (blood_group Scenario.confirmed) = true.
Proof.
  apply (accepted_donor_is_compatible Scenario.s6 Scenario.confirmed
           Scenario.dana scenario_reachable); [|reflexivity].
  replace (requests_list Scenario.s6) with [Scenario.confirmed]
    by (vm_compute; reflexivity).
  apply list_elem_of_here.
Defined.

(** X18. In every reached store a donor's log and the donor's request view
    agree: [get_user_requests] for role Donor returns as many requests as
    the log has records, none of them still Requested, and every record of
    the log carries the id, blood group and requestor of one of them. *)
Theorem donor_log_matches_requests st e :
  reachable st →
  List.length (get_user_requests st e "Donor")
  = List.length (default [] (donation_history st !! e))
  ∧ (∀ r, r ∈ get_user_requests st e "Donor" → status r ≠ "Requested")
  ∧ (∀ d, d ∈ default [] (donation_history st !! e) →
          ∃ r, r ∈ get_user_requests st e "Donor" ∧ record_of r d).
Proof.
  intros Hreach.
  destruct (reachable_history_ok st Hreach e) as [Hlen Hrec].
  destruct (reachable_store_ok st Hreach) as [_ Hr].
  unfold get_user_requests. rewrite decide_False by done.
  rewrite decide_True by done. split; [done|]. split.
  - intros r [Hd Hin]%list_elem_of_filter Hs.
    destruct (request_ok_requested _ _ (proj1 (Forall_forall _ _) Hr r Hin) Hs)
      as [Hnone _].
    congruence.
  - intros d Hd. destruct (Hrec d Hd) as (r & Hin & He & Hrd).
    exists r. split; [|done]. by apply list_elem_of_filter.
Qed.

Lemma donor_log_matches_requests_witness :
  List.length (get_user_requests Scenario.s6 Scenario.dana "Donor")
  = List.length (default [] (donation_history Scenario.s6 !! Scenario.dana)).
Proof.
  exact (proj1 (donor_log_matches_requests Scenario.s6 Scenario.dana
                  scenario_reachable)).
Defined.

End reached.

(* ------------------------------------------------------------------ *)
(** ** Creation, views and the whole lifecycle *)

Section workflow.

Implicit Types (st : Store) (session : option string) (r : Request).

Lemma find_request_insert (rs : list Request) rid i r r' :
  find_request rs rid = Some (i, r) → req_id r' = req_id r →
  find_request (<[i:=r']> rs) rid = Some (i, r').
Proof.
  revert i. induction rs as [|a rs IH]; simpl; intros i; [done|].
  destruct (decide (req_id a = rid)) as [Ha|Ha].
  - intros [= <- <-] Hid. simpl. rewrite decide_True by congruence. done.
  - destruct (find_request rs rid) as [[j q]|] eqn:E; simpl; [|done].
    intros [= <- <-] Hid. simpl. rewrite decide_False by done.
    by rewrite (IH j eq_refl Hid).
Qed.

Lemma create_request_failure st session method form units uuid8 now :
  let out := create_request st session method form units uuid8 now in
  out.2 = st →
  out.1 ≠ Redirect "dashboard"
            ("Blood request created successfully! Request ID: "
               +:+ "req_" +:+ uuid8) "success".
Proof.
  unfold create_request, generate_unique_id.
  destruct (get_current_user st session) as [u|]; [|done].
  repeat case_decide; try done.
  destruct units as [n|]; [|done]. case_decide; [done|].
  cbn [snd]. intros Heq _.
  apply (f_equal (λ s, List.length (requests_list s))) in Heq.
  cbn in Heq. rewrite length_app in Heq. simpl in Heq. lia.
Qed.

(** X19. For an ASCII blood group field, [create_request] succeeds
    exactly for a POST by a logged-in Requestor with a valid canonical
    blood group and units that parse to a positive integer; exactly one
    request is then appended, in status Requested, under the announced id
    and with the canonical group; it is the last of the active requests
    and of the requestor's own requests. Whatever the input, a call that
    does not succeed leaves the store untouched. *)
Theorem create_request_success_iff st session method form units uuid8 now :
  let out := create_request st session method form units uuid8 now in
  let g := upper (strip (form_get form "blood_group" "")) in
  let created :=
    Redirect "dashboard"
      ("Blood request created successfully! Request ID: "
         +:+ "req_" +:+ uuid8) "success" in
  (ascii_fields form ["blood_group"] →
   (out.1 = created
    ↔ ∃ u n, get_current_user st session = Some u
             ∧ user_role u = "Requestor" ∧ method = "POST"
             ∧ g ∈ get_all_valid_blood_groups
             ∧ units = Some n ∧ (0 < n)%Z)
   ∧ (out.1 = created →
      ∃ u r, get_current_user st session = Some u
             ∧ requests_list out.2 = (requests_list st ++ [r])%list
             ∧ users out.2 = users st
             ∧ donation_history out.2 = donation_history st
             ∧ status r = "Requested" ∧ req_id r = "req_" +:+ uuid8
             ∧ blood_group r = g
             ∧ get_active_requests out.2
               = (get_active_requests st ++ [r])%list
             ∧ get_user_requests out.2 (user_email u) "Requestor"
               = (get_user_requests st (user_email u) "Requestor"
                  ++ [r])%list))
  ∧ (out.1 ≠ created → out.2 = st).
Proof.
  cbv zeta.
  pose proof (create_request_inv st session method form units uuid8 now)
    as Hinv.
  pose proof (create_request_failure st session method form units uuid8 now)
    as Hfail.
  cbv zeta in Hinv, Hfail. split; [intros _; split|].
  - split.
    + intros Hc.
      destruct Hinv as [Hsame|(u & n & ? & ? & ? & ? & ? & ? & _)];
        [by destruct (Hfail Hsame)|]. by exists u, n.
    + intros (u & n & Hu & Hr & Hm & Hg & -> & Hn).
      unfold create_request, generate_unique_id. rewrite Hu.
      rewrite decide_False by (by intros ?).
      rewrite decide_True by done. rewrite decide_False by (by intros ?).
      by rewrite decide_False by lia.
  - intros Hc.
    destruct Hinv as [Hsame|(u & n & Hu & _ & _ & _ & _ & _ & _
                             & Hus & Hhi & Hrq)];
      [by destruct (Hfail Hsame)|].
    eexists u, _. split; [done|]. split; [exact Hrq|].
    split; [done|]. split; [done|]. split; [done|]. split; [done|].
    split; [done|]. split.
    + unfold get_active_requests. rewrite Hrq, filter_app. by f_equal.
    + unfold get_user_requests. rewrite !decide_True by done.
      rewrite Hrq, filter_app. f_equal. by rewrite filter_cons_True.
  - intros Hne.
    by destruct Hinv as [?|(u & n & _ & _ & _ & _ & _ & _ & ? & _)].
Qed.

Lemma create_request_success_iff_witness :
  ∃ r, requests_list Scenario.s4 = (requests_list Scenario.s3 ++ [r])%list
       ∧ status r = "Requested" ∧ blood_group r = "AB-".
Proof.
  destruct (proj1 (create_request_success_iff Scenario.s3
              (Some Scenario.rita) "POST" {[ "blood_group" := "ab-" ]}
              (Some 2%Z) "deadbeef" "2026-01-05 10:00:00")) as [_ Hsucc].
  - repeat (constructor; [vm_compute; reflexivity|]). constructor.
  - destruct Hsucc as (u & r & _ & Hrq & _ & _ & Hs & _ & Hg & _);
      [vm_compute; reflexivity|].
    exists r. split; [exact Hrq|]. split; [exact Hs|exact Hg].
Defined.

(** X20. [get_user_requests] returns, in the order of the collection, the
    requests a requestor authored or the requests naming a donor, and
    nothing for any other role; a successful acceptance puts the request
    into the accepting donor's view. *)
Theorem user_requests_views st :
  (∀ e role, role ≠ "Requestor" → role ≠ "Donor" →
             get_user_requests st e role = [])
  ∧ (∀ e role, get_user_requests st e role `sublist_of` requests_list st)
  ∧ (∀ e r, r ∈ get_user_requests st e "Requestor"
            ↔ r ∈ requests_list st ∧ requestor_email r = e)
  ∧ (∀ e r, r ∈ get_user_requests st e "Donor"
            ↔ r ∈ requests_list st ∧ donor_email r = Some e)
  ∧ (∀ session method now now' rid u,
       get_current_user st session = Some u →
       (donate_blood st session method now now' rid).1 = AcceptedOk →
       ∃ r, r ∈ get_user_requests
                  (donate_blood st session method now now' rid).2
                  (user_email u) "Donor"
            ∧ req_id r = rid ∧ status r = "Accepted").
Proof.
  split; [|split; [|split; [|split]]].
  - intros e role H1 H2. unfold get_user_requests.
    by rewrite !decide_False.
  - intros e role. unfold get_user_requests.
    repeat case_decide; try apply sublist_filter. apply sublist_nil_l.
  - intros e r. unfold get_user_requests. rewrite decide_True by done.
    rewrite list_elem_of_filter. tauto.
  - intros e r. unfold get_user_requests. rewrite decide_False by done.
    rewrite decide_True by done. rewrite list_elem_of_filter. tauto.
  - intros session method now now' rid u Hu Hok.
    destruct (donate_blood_inv st session method now now' rid)
      as [[_ Hno]|(u' & i & r & r' & Hu' & _ & _ & Hf & _ & _ & _ & _
                   & Hrq & _ & Hde & _ & Hs' & _ & Hfr)]; [done|].
    assert (u' = u) as -> by congruence.
    apply find_request_Some in Hf as [Hi Hid].
    exists r'. unfold get_user_requests. rewrite decide_False by done.
    rewrite decide_True by done. rewrite list_elem_of_filter, Hrq.
    split; [split; [done|]|split; [|done]].
    + apply list_elem_of_lookup. exists i.
      apply list_lookup_insert_eq. by eapply lookup_lt_Some.
    + unfold accept_frame in Hfr. injection Hfr as E1 _. congruence.
Qed.

Lemma user_requests_views_witness :
  ∃ r, r ∈ get_user_requests Scenario.s5 "dana@bank.org" "Donor"
       ∧ req_id r = Scenario.rid ∧ status r = "Accepted".
Proof.
  apply (proj2 (proj2 (proj2 (proj2 (user_requests_views Scenario.s4))))
           (Some Scenario.dana) "POST" "2026-01-05 11:00:00"
           "2026-01-05 11:00:01" Scenario.rid
           {| user_id := "donor_11112222"; user_name := "Dana";
              user_email := "dana@bank.org"; user_password := "hash-d1";
              user_blood_group := Some "B-"; user_role := "Donor";
              registered_at := "2026-01-05 09:01:00" |});
    vm_compute; reflexivity.
Defined.

(** X21. [donor_profile] shows a page only for the email of a registered
    Donor, with that donor's log and, in collection order, the active
    requests the donor's group is compatible with; every Requested request
    on the page that the lookup by id finds can be accepted by that donor
    at once. *)
Theorem donor_profile_page st session e d log shown :
  donor_profile st session e = ProfilePage d log shown →
  is_Some (get_current_user st session)
  ∧ users st !! e = Some d
  ∧ user_role d = "Donor"
  ∧ log = default [] (donation_history st !! e)
  ∧ shown `sublist_of` get_active_requests st
  ∧ (∀ r, r ∈ shown
          ↔ r ∈ get_active_requests st
            ∧ is_compatible (str_of (user_blood_group d)) (blood_group r)
              = true)
  ∧ (∀ r i now now',
       r ∈ shown → status r = "Requested" →
       find_request (requests_list st) (req_id r) = Some (i, r) →
       (donate_blood st (Some e) "POST" now now' (req_id r)).1 = AcceptedOk).
Proof.
  unfold donor_profile.
  destruct (get_current_user st session) as [cu|]; [|done].
  destruct (users st !! e) as [d'|] eqn:Ed; [|done].
  case_decide as Hr; [done|]. intros [= <- <- <-].
  assert (Hrole : user_role d' = "Donor")
    by (by destruct (decide (user_role d' = "Donor"))).
  split; [by eexists|]. split; [done|]. split; [done|]. split; [done|].
  split; [apply sublist_filter|]. split.
  - intros r. rewrite list_elem_of_filter. tauto.
  - intros r i now now' [Hc _]%list_elem_of_filter Hs Hf.
    unfold donate_blood. cbn [get_current_user]. rewrite Ed.
    rewrite decide_False by (by intros ?). rewrite Hf.
    rewrite decide_False by (by intros ?). rewrite Hc. cbn [negb].
    by rewrite decide_True.
Qed.

Lemma donor_profile_page_witness :
  (donate_blood Scenario.s4 (Some Scenario.dana) "POST"
     "2026-01-05 11:00:00" "2026-01-05 11:00:01"
     (req_id Scenario.requested)).1 = AcceptedOk.
Proof.
  refine (proj2 (proj2 (proj2 (proj2 (proj2 (proj2
            (donor_profile_page Scenario.s4 (Some Scenario.dov)
               Scenario.dana _ _ _ eq_refl))))))
            Scenario.requested 0%nat _ _ _ eq_refl _).
  - replace (filter _ _) with [Scenario.requested]
      by (vm_compute; reflexivity).
    apply list_elem_of_here.
  - vm_compute. reflexivity.
Defined.

Lemma get_current_user_users st st' session :
  users st' = users st →
  get_current_user st' session = get_current_user st session.
Proof. intros H. unfold get_current_user. by rewrite H. Qed.

Lemma donate_blood_blocked st session method now now' rid i r :
  find_request (requests_list st) rid = Some (i, r) →
  status r ≠ "Requested" →
  (donate_blood st session method now now' rid).2 = st
  ∧ (donate_blood st session method now now' rid).1 ≠ AcceptedOk.
Proof.
  intros Hf Hs.
  destruct (donate_blood_inv st session method now now' rid)
    as [?|(u & i' & r0 & r' & _ & _ & _ & Hf' & Hs' & _)]; [done|].
  rewrite Hf in Hf'. injection Hf' as <- <-. done.
Qed.

Lemma confirm_request_blocked st session method now rid i r :
  find_request (requests_list st) rid = Some (i, r) →
  status r ≠ "Accepted" →
  (confirm_request st session method now rid).2 = st
  ∧ (confirm_request st session method now rid).1 ≠ ConfirmedOk.
Proof.
  intros Hf Hs.
  destruct (confirm_request_inv st session method now rid)
    as [?|(u & i' & r0 & r' & _ & _ & Hf' & _ & Hs' & _)]; [done|].
  rewrite Hf in Hf'. injection Hf' as <- <-. done.
Qed.

Lemma donate_blood_success st session now now' rid u i r :
  get_current_user st session = Some u → user_role u = "Donor" →
  find_request (requests_list st) rid = Some (i, r) →
  status r = "Requested" →
  is_compatible (str_of (user_blood_group u)) (blood_group r) = true →
  ∃ r', donate_blood st session "POST" now now' rid
        = (AcceptedOk,
           {| users := users st;
              requests_list := <[i := r']> (requests_list st);
              donation_history :=
                record_donation (donation_history st) (user_email u) rid
                  (blood_group r) (requestor_email r) now' |})
        ∧ donor_email r' = Some (user_email u)
        ∧ status r' = "Accepted"
        ∧ accepted_at r' = Some now
        ∧ accept_frame r' = accept_frame r.
Proof.
  intros Hu Hr Hf Hs Hc. unfold donate_blood. rewrite Hu. cbv zeta.
  rewrite decide_False by (by intros ?). rewrite Hf.
  rewrite decide_False by (by intros ?). rewrite Hc. cbn [negb].
  rewrite decide_True by done. by eexists.
Qed.

Lemma confirm_request_success st session now rid q i r :
  get_current_user st session = Some q →
  find_request (requests_list st) rid = Some (i, r) →
  requestor_email r = user_email q →
  status r = "Accepted" →
  ∃ r', confirm_request st session "POST" now rid
        = (ConfirmedOk,
           {| users := users st;
              requests_list := <[i := r']> (requests_list st);
              donation_history := donation_history st |})
        ∧ status r' = "Confirmed"
        ∧ confirmed_at r' = Some now
        ∧ confirm_frame r' = confirm_frame r.
Proof.
  intros Hu Hf Ho Hs. unfold confirm_request. rewrite Hu, Hf.
  rewrite decide_False by (by intros ?).
  rewrite decide_False by (by intros ?).
  rewrite decide_True by done. by eexists.
Qed.

(** X22. The whole lifecycle composes: once a donor has accepted a
    request, a posted confirmation by its requestor succeeds; the request
    then stands Confirmed at its place, with the accepting donor, the
    acceptance and confirmation times and its original identity, and from
    then on every further acceptance or confirmation of that id, by
    anyone, fails and leaves the store alone. *)
Theorem accept_then_confirm st sd sr now now' t rid u q i r :
  get_current_user st sd = Some u → user_role u = "Donor" →
  find_request (requests_list st) rid = Some (i, r) →
  status r = "Requested" →
  is_compatible (str_of (user_blood_group u)) (blood_group r) = true →
  get_current_user st sr = Some q →
  requestor_email r = user_email q →
  let st1 := (donate_blood st sd "POST" now now' rid).2 in
  let out := confirm_request st1 sr "POST" t rid in
  out.1 = ConfirmedOk
  ∧ (∃ r2, find_request (requests_list out.2) rid = Some (i, r2)
           ∧ status r2 = "Confirmed"
           ∧ donor_email r2 = Some (user_email u)
           ∧ accepted_at r2 = Some now
           ∧ confirmed_at r2 = Some t
           ∧ identity r2 = identity r)
  ∧ (∀ s m a b,
       (donate_blood out.2 s m a b rid).2 = out.2
       ∧ (donate_blood out.2 s m a b rid).1 ≠ AcceptedOk)
  ∧ (∀ s m a,
       (confirm_request out.2 s m a rid).2 = out.2
       ∧ (confirm_request out.2 s m a rid).1 ≠ ConfirmedOk).
Proof.
  intros Hu Hr Hf Hs Hc Hq Ho. cbv zeta.
  destruct (donate_blood_success st sd now now' rid u i r Hu Hr Hf Hs Hc)
    as (r1 & -> & Hd1 & Hs1 & Ha1 & Hfr1).
  cbn [snd]. set (st1 := {| users := users st |}).
  unfold accept_frame in Hfr1. injection Hfr1 as E1 E2 E3 E4 E5 E6 E7 E8.
  assert (Hf1 : find_request (requests_list st1) rid = Some (i, r1))
    by (apply (find_request_insert _ _ _ r); [exact Hf|congruence]).
  assert (Hq1 : get_current_user st1 sr = Some q)
    by (by rewrite (get_current_user_users st st1)).
  assert (Ho1 : requestor_email r1 = user_email q) by congruence.
  destruct (confirm_request_success st1 sr t rid q i r1 Hq1 Hf1 Ho1 Hs1)
    as (r2 & -> & Hs2 & Hc2 & Hfr2).
  cbn [fst snd]. set (st2 := {| users := users st1 |}).
  unfold confirm_frame in Hfr2.
  injection Hfr2 as F1 F2 F3 F4 F5 F6 F7 F8 F9 F10.
  assert (Hf2 : find_request (requests_list st2) rid = Some (i, r2))
    by (apply (find_request_insert _ _ _ r1); [exact Hf1|congruence]).
  split; [done|]. split; [|split].
  - exists r2. split; [done|]. split; [done|]. split; [congruence|].
    split; [congruence|]. split; [done|]. unfold identity. congruence.
  - intros s m a b. apply (donate_blood_blocked st2 s m a b rid i r2 Hf2).
    by rewrite Hs2.
  - intros s m a. apply (confirm_request_blocked st2 s m a rid i r2 Hf2).
    by rewrite Hs2.
Qed.

Lemma accept_then_confirm_witness :
  (confirm_request
     (donate_blood Scenario.s4 (Some Scenario.dana) "POST"
        "2026-01-05 11:00:00" "2026-01-05 11:00:01" Scenario.rid).2
     (Some Scenario.rita) "POST" "2026-01-06 08:00:00" Scenario.rid).1
  = ConfirmedOk.
Proof.
  refine (proj1 (accept_then_confirm Scenario.s4 (Some Scenario.dana)
            (Some Scenario.rita) "2026-01-05 11:00:00"
            "2026-01-05 11:00:01" "2026-01-06 08:00:00" Scenario.rid
            {| user_id := "donor_11112222"; user_name := "Dana";
               user_email := "dana@bank.org"; user_password := "hash-d1";
               user_blood_group := Some "B-"; user_role := "Donor";
               registered_at := "2026-01-05 09:01:00" |}
            {| user_id := "requestor_0a1b2c3d"; user_name := "Rita";
               user_email := "rita@bank.org"; user_password := "hash-r";
               user_blood_group := None; user_role := "Requestor";
               registered_at := "2026-01-05 09:00:00" |}
            0%nat Scenario.requested _ _ _ _ _ _ _));
    vm_compute; reflexivity.
Defined.

(** X23. An acceptance takes exactly one request out of the list
    [get_active_requests] returns, and a confirmation puts exactly one
    back: the active view holds the Requested and the Confirmed requests
    but not the Accepted ones. *)
Theorem acceptance_leaves_active_view st session method rid :
  (∀ now now',
     (donate_blood st session method now now' rid).1 = AcceptedOk →
     (List.length
        (get_active_requests (donate_blood st session method now now' rid).2)
      + 1 = List.length (get_active_requests st))%nat)
  ∧ (∀ now,
       (confirm_request st session method now rid).1 = ConfirmedOk →
       List.length
         (get_active_requests (confirm_request st session method now rid).2)
       = (List.length (get_active_requests st) + 1)%nat).
Proof.
  split.
  - intros now now' Hok.
    destruct (donate_blood_inv st session method now now' rid)
      as [[_ ?]|(u & i & r & r' & _ & _ & _ & Hf & Hs & _ & _ & _
                 & Hrq & _ & _ & _ & Hs' & _)]; [done|].
    apply find_request_Some in Hf as [Hi _].
    unfold get_active_requests. rewrite Hrq.
    pose proof (filter_insert_length
                  (λ req, status req ∈ ["Requested"; "Confirmed"])
                  (requests_list st) i r r' Hi) as Hcount.
    cbn beta in Hcount. rewrite Hs, Hs' in Hcount.
    rewrite decide_True in Hcount by apply list_elem_of_here.
    rewrite decide_False in Hcount; [lia|].
    apply (bool_decide_unpack _). by vm_compute.
  - intros now Hok.
    destruct (confirm_request_inv st session method now rid)
      as [[_ ?]|(u & i & r & r' & _ & _ & Hf & _ & Hs & _ & _
                 & Hrq & _ & Hs' & _)]; [done|].
    apply find_request_Some in Hf as [Hi _].
    unfold get_active_requests. rewrite Hrq.
    pose proof (filter_insert_length
                  (λ req, status req ∈ ["Requested"; "Confirmed"])
                  (requests_list st) i r r' Hi) as Hcount.
    cbn beta in Hcount. rewrite Hs, Hs' in Hcount.
    rewrite decide_False in Hcount.
    + rewrite decide_True in Hcount; [lia|].
      apply list_elem_of_further, list_elem_of_here.
    + apply (bool_decide_unpack _). by vm_compute.
Qed.

Lemma acceptance_leaves_active_view_witness :
  (List.length (get_active_requests Scenario.s5) + 1
   = List.length (get_active_requests Scenario.s4))%nat.
Proof.
  apply (proj1 (acceptance_leaves_active_view Scenario.s4
                  (Some Scenario.dana) "POST" Scenario.rid)
           "2026-01-05 11:00:00" "2026-01-05 11:00:01").
  vm_compute. reflexivity.
Defined.

End workflow.
